(** * wigle-bluetooth: the event-correlation pipeline of [main.go]

    A shallow embedding of the scanner's Go source: the location cache
    written by the GPS filter, the first-seen map, the BlueZ class lookup,
    the capability legend and the assembly of WiGLE rows, followed by the
    properties of the specification that were checked against it. *)

From Stdlib Require Import ZArith List String Ascii Bool Lia.
From Stdlib Require Import DecimalString SpecFloat.
From stdpp Require Import gmap strings.

Local Open Scope string_scope.
Local Open Scope Z_scope.

(** ** Go values used by the program *)

Module Go.

(** [float64]: an IEEE-754 binary64 value, as sign, mantissa and exponent.
    [S754_finite s m e] stands for [(-1)^s * m * 2^e]. *)
Definition float64 : Type := spec_float.

(** [math.Float64frombits]: the value whose IEEE-754 encoding is [b]. *)
Definition float64_of_bits (b : Z) : float64 :=
  let s := Z.testbit b 63 in
  let ex := Z.land (Z.shiftr b 52) 0x7FF in
  let frac := Z.land b 0xFFFFFFFFFFFFF in
  if ex =? 0 then
    match frac with
    | Zpos m => S754_finite s m (-1074)
    | _ => S754_zero s
    end
  else if ex =? 0x7FF then
    (if frac =? 0 then S754_infinity s else S754_nan)
  else
    match frac + 2 ^ 52 with
    | Zpos m => S754_finite s m (ex - 1075)
    | _ => S754_nan
    end.

(** The integer part of a finite value, rounded toward zero; [None] for
    infinities and NaN. *)
Definition float64_trunc (x : float64) : option Z :=
  match x with
  | S754_zero _ => Some 0
  | S754_finite s m e =>
      let a := Z.shiftl (Zpos m) e in
      Some (if s then - a else a)
  | S754_infinity _ | S754_nan => None
  end.

(** The exact value of a finite [x] as a fraction [num / den], with [den]
    a positive power of two. *)
Definition float64_ratio (x : float64) : option (Z * Z) :=
  match x with
  | S754_zero _ => Some (0, 1)
  | S754_finite s m e =>
      let num := Zpos m * 2 ^ Z.max 0 e in
      Some (if s then - num else num, 2 ^ Z.max 0 (- e))
  | S754_infinity _ | S754_nan => None
  end.

(** [fmt.Sprintf("%d", n)]. *)
Definition fmt_d (n : Z) : string := NilZero.string_of_int (Z.to_int n).

(** [fmt.Sprintf("%t", b)]. *)
Definition fmt_t (b : bool) : string := if b then "true" else "false".

(** The [k] low decimal digits of [n], most significant first. *)
Fixpoint digits_fixed (k : nat) (n : Z) : string :=
  match k with
  | O => ""
  | S k' =>
      digits_fixed k' (n / 10)
      ++ String (ascii_of_nat (48 + Z.to_nat (n mod 10))) ""
  end.

(** Nearest integer to [num / den] for [0 <= num] and [0 < den], ties to
    even: the rounding of [strconv]'s decimal conversion. *)
Definition div_round_half_even (num den : Z) : Z :=
  let q := num / den in
  let r := num mod den in
  if 2 * r <? den then q
  else if den <? 2 * r then q + 1
  else if Z.even q then q else q + 1.

(** The magnitude [m * 2^e] scaled by [10^prec] and rounded to an integer. *)
Definition scaled_magnitude (prec : nat) (m : positive) (e : Z) : Z :=
  let p := 10 ^ Z.of_nat prec in
  if 0 <=? e then Zpos m * 2 ^ e * p
  else div_round_half_even (Zpos m * p) (2 ^ (- e)).

Definition fixed_digits (prec : nat) (n : Z) : string :=
  let p := 10 ^ Z.of_nat prec in
  fmt_d (n / p)
  ++ match prec with
     | O => ""
     | _ => "." ++ digits_fixed prec (n mod p)
     end.

(** [fmt.Sprintf("%.<prec>f", x)]; the verb [%f] alone is precision 6. *)
Definition fmt_f_prec (prec : nat) (x : float64) : string :=
  match x with
  | S754_nan => "NaN"
  | S754_infinity false => "+Inf"
  | S754_infinity true => "-Inf"
  | S754_zero s => (if s then "-" else "") ++ fixed_digits prec 0
  | S754_finite s m e =>
      (if s then "-" else "") ++ fixed_digits prec (scaled_magnitude prec m e)
  end.

Definition fmt_f : float64 -> string := fmt_f_prec 6.

(** [fmt.Sprintf("%X", n)] for [0 <= n]: upper-case hexadecimal digits. *)
Definition hex_digit (d : Z) : ascii :=
  ascii_of_nat (Z.to_nat (if d <? 10 then 48 + d else 55 + d)).

Fixpoint hex_upper_aux (fuel : nat) (n : Z) (acc : string) : string :=
  match fuel with
  | O => acc
  | S fuel' =>
      if n <=? 0 then acc
      else hex_upper_aux fuel' (n / 16) (String (hex_digit (n mod 16)) acc)
  end.

Definition hex_upper (n : Z) : string :=
  if n <=? 0 then "0" else hex_upper_aux (S (Z.to_nat (Z.log2 n))) n "".

Fixpoint zeros (k : nat) : string :=
  match k with
  | O => ""
  | S k' => String "0" (zeros k')
  end.

(** Left padding with zeros up to [width] characters. *)
Definition pad_zero (width : nat) (s : string) : string :=
  zeros (width - String.length s) ++ s.

(** [fmt.Sprintf("%06X", n)] for an unsigned [n]. *)
Definition fmt_06X (n : Z) : string := pad_zero 6 (hex_upper n).

(** The line feed that [fmt.Println] and the formats' [\n] write. *)
Definition nl : string := String (ascii_of_nat 10) "".

(** [strings.ReplaceAll(s, old, new)] for one-character [old] and [new]. *)
Fixpoint ReplaceAll (s : string) (old new : ascii) : string :=
  match s with
  | EmptyString => EmptyString
  | String c s' =>
      String (if Ascii.eqb c old then new else c) (ReplaceAll s' old new)
  end.

(** [time.Time] in UTC, as nanoseconds since the Unix epoch. *)
Definition Time : Type := Z.

(** The zero [time.Time], January 1 of year 1, 00:00:00 UTC: what a map of
    times yields for a missing key. *)
Definition zero_Time : Time := -62135596800 * 1000000000.

(** [appendInt] of package [time]: a sign, then at least [width] digits. *)
Definition appendInt (x : Z) (width : nat) : string :=
  (if x <? 0 then "-" else "") ++ pad_zero width (fmt_d (Z.abs x)).

(** Year, month and day of the proleptic Gregorian calendar for a count of
    days since 1970-01-01. *)
Definition civil_from_days (days : Z) : Z * Z * Z :=
  let z := days + 719468 in
  let era := z / 146097 in
  let doe := z - era * 146097 in
  let yoe := (doe - doe / 1460 + doe / 36524 - doe / 146096) / 365 in
  let doy := doe - (365 * yoe + yoe / 4 - yoe / 100) in
  let mp := (5 * doy + 2) / 153 in
  let d := doy - (153 * mp + 2) / 5 + 1 in
  let m := if mp <? 10 then mp + 3 else mp - 9 in
  let y := yoe + era * 400 + (if m <=? 2 then 1 else 0) in
  (y, m, d).

Definition unix_seconds (t : Time) : Z := t / 1000000000.
Definition nanosecond (t : Time) : Z := t mod 1000000000.

Definition date_string (t : Time) : string :=
  let '(y, m, d) := civil_from_days (unix_seconds t / 86400) in
  appendInt y 4 ++ "-" ++ appendInt m 2 ++ "-" ++ appendInt d 2.

Definition hour (t : Time) : Z := unix_seconds t mod 86400 / 3600.
Definition minute (t : Time) : Z := unix_seconds t mod 3600 / 60.
Definition second (t : Time) : Z := unix_seconds t mod 60.

(** [t.Format("2006-01-02 15:04:05")]. *)
Definition Format_date_time (t : Time) : string :=
  date_string t ++ " " ++ appendInt (hour t) 2 ++ ":"
  ++ appendInt (minute t) 2 ++ ":" ++ appendInt (second t) 2.

(** [t.Format("2006-01-02T150405.000000000-0700")] for a UTC time. *)
Definition Format_file_stamp (t : Time) : string :=
  date_string t ++ "T" ++ appendInt (hour t) 2 ++ appendInt (minute t) 2
  ++ appendInt (second t) 2 ++ "." ++ digits_fixed 9 (nanosecond t)
  ++ "+0000".

End Go.

Import Go.

(** ** The data of [main.go] *)

(** [LocationData]: the last GPS solution. *)
Record LocationData := {
  Fix : bool;
  Latitude : float64;
  Longitude : float64;
  Altitude : float64;
  Error : float64
}.

(** The fields of [gpsd.TPVReport] that the filter reads; [Mode] is a byte. *)
Record TPVReport := {
  Mode : Z;
  Lat : float64;
  Lon : float64;
  Alt : float64;
  Eph : float64
}.

(** One entry of [AdvertisementPayload.ManufacturerData()]. *)
Record ManufacturerDataElement := {
  CompanyID : Z;
  Data : list Z
}.

(** [bluetooth.ScanResult], through the accessors the callback uses:
    [Address.String()], [RSSI], [LocalName()] and [ManufacturerData()]. *)
Record ScanResult := {
  Address : string;
  RSSI : Z;
  LocalName : string;
  ManufacturerData : list ManufacturerDataElement
}.

(** The dynamic value inside a [dbus.Variant]: a [uint32], or a value of
    another D-Bus type, named by its signature. *)
Inductive Variant :=
| VUint32 (v : Z)
| VOther (signature : string).

(** What [obj.GetProperty] returns: a variant, or an error. *)
Inductive PropertyReply :=
| Reply (v : Variant)
| Failure (err : string).

(** The system bus as the program sees it: the reply to [GetProperty] for a
    destination, an object path and a property name. *)
Definition Conn : Type := string -> string -> string -> PropertyReply.

(** ** Device class and capabilities *)

(** [getDeviceClass]: the Class of Device that BlueZ holds for [addr]. *)
Definition getDeviceClass (conn : Conn) (addr : string) : Z :=
  let sanitized := ReplaceAll addr ":" "_" in
  let path := "/org/bluez/hci0/dev_" ++ sanitized in
  match conn "org.bluez" path "org.bluez.Device1.Class" with
  | Reply (VUint32 class) => class
  | Reply (VOther _) => 0
  | Failure _ => 0
  end.

(** [deviceTypeLegend]: the [switch] over the masked class. *)
Definition deviceTypeLegend (deviceClass : Z) : string :=
  match deviceClass with
  | 0x0000 => "Misc"
  | 0x0100 => "Computer"
  | 0x0104 => "Desktop"
  | 0x0108 => "Server"
  | 0x010C => "Laptop"
  | 0x0110 => "PDA"
  | 0x0114 => "Palm"
  | 0x0118 => "Wearable Computer"
  | 0x0200 => "Phone"
  | 0x0204 => "Cellphone"
  | 0x0208 => "Cordless Phone"
  | 0x020C => "Smartphone"
  | 0x0210 => "Modem/GW"
  | 0x0214 => "ISDN"
  | 0x0400 => "A/V"
  | 0x0404 => "Headset"
  | 0x0408 => "Handsfree"
  | 0x0410 => "Mic"
  | 0x0414 => "Speaker"
  | 0x0418 => "Headphones"
  | 0x041C => "Portable Audio"
  | 0x0420 => "Car Audio"
  | 0x0428 => "HiFi"
  | 0x0430 => "Monitor"
  | 0x0434 => "Settop"
  | 0x0438 => "Camera"
  | 0x043C => "VCR"
  | 0x0440 => "Videoconf"
  | 0x0448 => "AV Toy"
  | 0x044C => "Display/Speaker"
  | 0x0456 => "Camcorder"
  | 0x0500 => "Keyboard !p"
  | 0x0540 => "Keyboard"
  | 0x0580 => "Pointer"
  | 0x05C0 => "Keyboard+p"
  | 0x0700 => "Wearable"
  | 0x0704 => "Watch"
  | 0x0708 => "Jacket"
  | 0x070C => "Pager"
  | 0x0710 => "Helmet"
  | 0x0714 => "Glasses"
  | 0x0800 => "Toy"
  | 0x0804 => "Robot"
  | 0x0808 => "Vehicle"
  | 0x080C => "Doll"
  | 0x0814 => "Game"
  | 0x0820 => "Controller"
  | 0x0900 => "Health"
  | 0x0904 => "Blood Pressure"
  | 0x0908 => "Thermometer"
  | 0x090C => "Scale"
  | 0x0910 => "Glucose"
  | 0x0914 => "PulseOxy"
  | 0x0918 => "Pulse"
  | 0x091C => "Health Display"
  | 0x1F00 => "Uncategorized"
  | _ => "Misc"
  end.

(** The [case] labels of [deviceTypeLegend] with the names they return, in
    source order: the capability table as data. *)
Definition legend_cases : list (Z * string) :=
  [
    (0x0000, "Misc");
    (0x0100, "Computer");
    (0x0104, "Desktop");
    (0x0108, "Server");
    (0x010C, "Laptop");
    (0x0110, "PDA");
    (0x0114, "Palm");
    (0x0118, "Wearable Computer");
    (0x0200, "Phone");
    (0x0204, "Cellphone");
    (0x0208, "Cordless Phone");
    (0x020C, "Smartphone");
    (0x0210, "Modem/GW");
    (0x0214, "ISDN");
    (0x0400, "A/V");
    (0x0404, "Headset");
    (0x0408, "Handsfree");
    (0x0410, "Mic");
    (0x0414, "Speaker");
    (0x0418, "Headphones");
    (0x041C, "Portable Audio");
    (0x0420, "Car Audio");
    (0x0428, "HiFi");
    (0x0430, "Monitor");
    (0x0434, "Settop");
    (0x0438, "Camera");
    (0x043C, "VCR");
    (0x0440, "Videoconf");
    (0x0448, "AV Toy");
    (0x044C, "Display/Speaker");
    (0x0456, "Camcorder");
    (0x0500, "Keyboard !p");
    (0x0540, "Keyboard");
    (0x0580, "Pointer");
    (0x05C0, "Keyboard+p");
    (0x0700, "Wearable");
    (0x0704, "Watch");
    (0x0708, "Jacket");
    (0x070C, "Pager");
    (0x0710, "Helmet");
    (0x0714, "Glasses");
    (0x0800, "Toy");
    (0x0804, "Robot");
    (0x0808, "Vehicle");
    (0x080C, "Doll");
    (0x0814, "Game");
    (0x0820, "Controller");
    (0x0900, "Health");
    (0x0904, "Blood Pressure");
    (0x0908, "Thermometer");
    (0x090C, "Scale");
    (0x0910, "Glucose");
    (0x0914, "PulseOxy");
    (0x0918, "Pulse");
    (0x091C, "Health Display");
    (0x1F00, "Uncategorized")
  ].

(** The name that the table gives for the key [k], if [k] is a key. *)
Definition legend_lookup (k : Z) : option string :=
  match find (fun kv => fst kv =? k) legend_cases with
  | Some kv => Some (snd kv)
  | None => None
  end.

(** [buildCapabilities]: the legend name of the masked class with the
    scan-type tag. *)
Definition buildCapabilities (class : Z) : string :=
  let deviceClass := Z.land class 0x1FFC in
  let name := deviceTypeLegend deviceClass in
  if negb (String.eqb name "") then name ++ " [LE]" else "[LE]".

(** ** The state of the process *)

(** The package-level variables [currentLocation] and [firstSeen], the
    records handed to the CSV writer (each one is flushed at once), oldest
    first, and the lines printed on standard output. *)
Record State := {
  currentLocation : LocationData;
  firstSeen : gmap string Time;
  csv : list (list string);
  stdout : list string
}.

Definition print (line : string) (st : State) : State :=
  {| currentLocation := currentLocation st;
     firstSeen := firstSeen st;
     csv := csv st;
     stdout := stdout st ++ [line] |}.

(** The zero value of [LocationData], held before the first report. *)
Definition zero_location : LocationData :=
  {| Fix := false;
     Latitude := S754_zero false;
     Longitude := S754_zero false;
     Altitude := S754_zero false;
     Error := S754_zero false |}.

(** The location that a report stores. *)
Definition location_of_report (report : TPVReport) : LocationData :=
  {| Fix := 2 <=? Mode report;
     Latitude := Lat report;
     Longitude := Lon report;
     Altitude := Alt report;
     Error := Eph report |}.

(** [tpvFilter]: the callback for position reports. *)
Definition tpvFilter (report : TPVReport) (st : State) : State :=
  let fix' := 2 <=? Mode report in
  print
    ("GPS update: Fix " ++ fmt_t fix'
     ++ " Lat " ++ fmt_f_prec 6 (Lat report)
     ++ " Lon " ++ fmt_f_prec 6 (Lon report)
     ++ " Alt " ++ fmt_f_prec 1 (Alt report)
     ++ " m Acc " ++ fmt_f_prec 1 (Eph report) ++ " m" ++ nl)
    {| currentLocation :=
         {| Fix := fix';
            Latitude := Lat report;
            Longitude := Lon report;
            Altitude := Alt report;
            Error := Eph report |};
       firstSeen := firstSeen st;
       csv := csv st;
       stdout := stdout st |}.

(** The WiGLE Bluetooth CSV header. *)
Definition header : list string :=
  [ "MAC"; "SSID"; "AuthMode"; "FirstSeen"; "Channel";
    "Frequency"; "RSSI"; "CurrentLatitude"; "CurrentLongitude";
    "AltitudeMeters"; "AccuracyMeters"; "RCOIs"; "MfgrId"; "Type" ].

(** [must]: the value it panics with when [err] is an error, if any. *)
Definition must (action : string) (err : option string) : option string :=
  match err with
  | Some e => Some ("failed to " ++ action ++ ": " ++ e)
  | None => None
  end.

Section Platform.

(** The width of [int] in bits ([strconv.IntSize]). *)
Variable intSize : Z.

(** A conversion of a floating-point value that [int] cannot represent
    succeeds with a result that the language leaves to the implementation. *)
Variable unrepresentable_int : float64 -> Z.

(** [int(x)] for a [float64] [x]. *)
Definition int_of_float64 (x : float64) : Z :=
  match float64_trunc x with
  | Some z =>
      if (- 2 ^ (intSize - 1) <=? z) && (z <? 2 ^ (intSize - 1)) then z
      else unrepresentable_int x
  | None => unrepresentable_int x
  end.

(** The callback passed to [adapter.Scan], for one discovery event:
    [conn] answers the property lookup and [now] is [time.Now().UTC()]. *)
Definition scan_callback (conn : Conn) (now : Time) (device : ScanResult)
    (st : State) : State :=
  let loc := currentLocation st in
  if negb (Fix loc) then
    print ("No GPS fix, skipping device: " ++ Address device ++ nl) st
  else
    let addr := Address device in
    let firstSeen' :=
      match firstSeen st !! addr with
      | Some _ => firstSeen st
      | None => <[addr := now]> (firstSeen st)
      end in
    let deviceClass := getDeviceClass conn addr in
    let capabilities := buildCapabilities deviceClass in
    let deviceTypeCode := Z.land deviceClass 0x1FFC in
    let mfgrID :=
      match ManufacturerData device with
      | md :: _ => fmt_d (CompanyID md)
      | [] => ""
      end in
    let row :=
      [ addr;
        LocalName device;
        capabilities;
        Format_date_time (default zero_Time (firstSeen' !! addr));
        "0";
        fmt_d deviceTypeCode;
        fmt_d (RSSI device);
        fmt_f (Latitude loc);
        fmt_f (Longitude loc);
        fmt_d (int_of_float64 (Altitude loc));
        fmt_f (Error loc);
        "";
        mfgrID;
        "BLE" ] in
    print
      ("Found device: " ++ addr ++ " (" ++ LocalName device
       ++ ") Class: 0x" ++ fmt_06X deviceClass
       ++ " Capabilities: " ++ capabilities ++ nl)
      {| currentLocation := currentLocation st;
         firstSeen := firstSeen';
         csv := csv st ++ [row];
         stdout := stdout st |}.

(** ** The life of the process *)

(** The outcomes of the calls that [main] makes before it scans: an error
    message where a call fails, and the clock read for the file name. *)
Record Startup := {
  enable_error : option string;
  dial_error : option string;
  system_bus_error : option string;
  mkdir_error : option string;
  start_time : Time;
  create_error : option string
}.

(** Where [main] is: stopped by the panic of [must], blocked in
    [adapter.Scan] with the callback subscribed, or in the final [for {}]. *)
Inductive Process :=
| Panicked (message : string)
| Scanning (st : State)
| Spinning (st : State).

(** [main] up to the call of [adapter.Scan]. *)
Definition main_start (s : Startup) : Process :=
  match must "enable BLE stack" (enable_error s) with
  | Some panic => Panicked panic
  | None =>
  match must "gpsd dial" (dial_error s) with
  | Some panic => Panicked panic
  | None =>
  match must "connect to system dbus" (system_bus_error s) with
  | Some panic => Panicked panic
  | None =>
  match must "create loot directory" (mkdir_error s) with
  | Some panic => Panicked panic
  | None =>
  let csvPath :=
    "/root/loot/wigle-bluetooth/wigle-bluetooth-"
    ++ Format_file_stamp (start_time s) ++ ".csv" in
  match must "create CSV file" (create_error s) with
  | Some panic => Panicked panic
  | None =>
      Scanning
        {| currentLocation := zero_location;
           firstSeen := ∅;
           csv := [header];
           stdout := ["Writing to " ++ csvPath ++ nl] |}
  end end end end end.

(** What reaches the process once it scans: a position report from the
    [gpsd] watcher, a discovery event with the clock and the bus as they are
    when the callback runs, or the return of [adapter.Scan]. *)
Inductive Input :=
| PositionReport (report : TPVReport)
| Discovery (now : Time) (conn : Conn) (device : ScanResult)
| ScanReturned (err : option string).

(** One input. After [adapter.Scan] has returned nothing subscribes the
    callback again: the watcher's reports are all that is still served. *)
Definition deliver (p : Process) (i : Input) : Process :=
  match p with
  | Panicked message => Panicked message
  | Scanning st =>
      match i with
      | PositionReport report => Scanning (tpvFilter report st)
      | Discovery now conn device => Scanning (scan_callback conn now device st)
      | ScanReturned (Some err) =>
          Spinning (print ("failed to start scan: " ++ err ++ nl) st)
      | ScanReturned None => Spinning st
      end
  | Spinning st =>
      match i with
      | PositionReport report => Spinning (tpvFilter report st)
      | Discovery _ _ _ => Spinning st
      | ScanReturned _ => Spinning st
      end
  end.

Definition run (p : Process) (inputs : list Input) : Process :=
  fold_left deliver inputs p.

(** The number of discovery events among [inputs] that reach the callback
    while the stored location has a fix. *)
Fixpoint rows_due (p : Process) (inputs : list Input) : nat :=
  match inputs with
  | [] => 0
  | i :: rest =>
      match p, i with
      | Scanning st, Discovery _ _ _ =>
          if Fix (currentLocation st) then 1 else 0
      | _, _ => 0
      end + rows_due (deliver p i) rest
  end%nat.

(** [main] on the outcomes of its startup calls and what reaches it after. *)
Definition main (s : Startup) (inputs : list Input) : Process :=
  run (main_start s) inputs.

(** The process has terminated. *)
Definition exited (p : Process) : bool :=
  match p with
  | Panicked _ => true
  | _ => false
  end.

Definition state_of (p : Process) : option State :=
  match p with
  | Panicked _ => None
  | Scanning st | Spinning st => Some st
  end.

End Platform.

(** The rows for [addr] carry the formatted time [t]. *)
Definition rows_first_seen (addr : string) (t : Time)
    (rows : list (list string)) : Prop :=
  Forall (fun row => row !! 0%nat = Some addr ->
                     row !! 3%nat = Some (Format_date_time t)) rows.

(** A data row of the log: fourteen fields, with the three constant ones. *)
Definition wigle_row (row : list string) : Prop :=
  length row = 14%nat
  /\ row !! 4%nat = Some "0"
  /\ row !! 11%nat = Some ""
  /\ row !! 13%nat = Some "BLE".

(** The log is the header followed by data rows. *)
Definition log_shape (st : State) : Prop :=
  exists rows, csv st = header :: rows /\ Forall wigle_row rows.

(** The lookup that [getDeviceClass] makes for [addr] fails, or its variant
    does not hold a [uint32]. *)
Definition lookup_failed (conn : Conn) (addr : string) : bool :=
  match conn "org.bluez"
             ("/org/bluez/hci0/dev_" ++ ReplaceAll addr ":" "_")
             "org.bluez.Device1.Class" with
  | Reply (VUint32 _) => false
  | Reply (VOther _) => true
  | Failure _ => true
  end.

(** The report of the first end-to-end scenario: mode 3, latitude 37,
    longitude -122, altitude 10, horizontal error 5. *)
Definition scenario_report : TPVReport :=
  {| Mode := 3;
     Lat := float64_of_bits 0x4042800000000000;
     Lon := float64_of_bits 0xC05E800000000000;
     Alt := float64_of_bits 0x4024000000000000;
     Eph := float64_of_bits 0x4014000000000000 |}.

(** ** Sample inputs *)

(** A 64-bit platform on which an unrepresentable conversion yields the
    smallest [int]. *)
Definition sample_intSize : Z := 64.
Definition sample_unrepresentable : float64 -> Z := fun _ => - 2 ^ 63.

(** Every startup call succeeds; the clock reads 2023-11-14 22:13:20 UTC. *)
Definition sample_startup : Startup :=
  {| enable_error := None;
     dial_error := None;
     system_bus_error := None;
     mkdir_error := None;
     start_time := 1700000000 * 1000000000;
     create_error := None |}.

Definition sample_device : ScanResult :=
  {| Address := "AA:BB:CC:DD:EE:FF";
     RSSI := -60;
     LocalName := "phone";
     ManufacturerData := [ {| CompanyID := 76; Data := [] |} ] |}.

(** BlueZ knows the sample device as a smartphone, and nothing else. *)
Definition sample_bus : Conn :=
  fun dest path property =>
    if String.eqb path "/org/bluez/hci0/dev_AA_BB_CC_DD_EE_FF"
    then Reply (VUint32 0x020C)
    else Failure "org.freedesktop.DBus.Error.UnknownObject".

(** BlueZ holds a class of the wrong type for every device. *)
Definition mistyped_bus : Conn :=
  fun dest path property => Reply (VOther "s").

(** The state right after startup, and after the scenario's report. *)
Definition sample_initial : State :=
  {| currentLocation := zero_location;
     firstSeen := ∅;
     csv := [header];
     stdout := [] |}.

Definition sample_located : State := tpvFilter scenario_report sample_initial.

(** A mode-3 report at the scenario's position with the altitude [alt]. *)
Definition report_at_altitude (alt : float64) : TPVReport :=
  {| Mode := 3;
     Lat := Lat scenario_report;
     Lon := Lon scenario_report;
     Alt := alt;
     Eph := Eph scenario_report |}.

(** The [float64] nearest to 10.9, and the one nearest to -3.7. *)
Definition altitude_10_9 : float64 := float64_of_bits 0x4025CCCCCCCCCCCD.
Definition altitude_minus_3_7 : float64 := float64_of_bits 0xC00D99999999999A.

(** The [float64] nearest to 1e30, beyond every [int]. *)
Definition altitude_1e30 : float64 := float64_of_bits 0x46293E5939A08CEA.

(** A run: the report, the device seen twice ten seconds apart, the second
    time with the lookup failing, then the scan returning an error. *)
Definition sample_inputs : list Input :=
  [ PositionReport scenario_report;
    Discovery (1700000005 * 1000000000) sample_bus sample_device;
    Discovery (1700000015 * 1000000000) mistyped_bus sample_device;
    ScanReturned (Some "operation already in progress");
    PositionReport scenario_report ].

Definition sample_final : State :=
  default sample_initial
    (state_of (main sample_intSize sample_unrepresentable
                 sample_startup sample_inputs)).

(** ** The two callbacks, interleaved

    The watcher goroutine of [gpsd] runs [tpvFilter] while the scan runs its
    callback. Here both are cut at every access to [locationMu] and to a
    field of [currentLocation], so that a struct assignment is five separate
    stores, a struct copy five separate loads, and a schedule picks which
    goroutine moves next. *)

Module Interleaving.

Inductive goroutine := Watcher | Scanner.

Inductive field := FFix | FLatitude | FLongitude | FAltitude | FError.

Definition next_field (f : field) : option field :=
  match f with
  | FFix => Some FLatitude
  | FLatitude => Some FLongitude
  | FLongitude => Some FAltitude
  | FAltitude => Some FError
  | FError => None
  end.

(** [dst] with its field [f] overwritten by that of [src]. *)
Definition copy_field (f : field) (src dst : LocationData) : LocationData :=
  match f with
  | FFix =>
      {| Fix := Fix src; Latitude := Latitude dst; Longitude := Longitude dst;
         Altitude := Altitude dst; Error := Error dst |}
  | FLatitude =>
      {| Fix := Fix dst; Latitude := Latitude src; Longitude := Longitude dst;
         Altitude := Altitude dst; Error := Error dst |}
  | FLongitude =>
      {| Fix := Fix dst; Latitude := Latitude dst; Longitude := Longitude src;
         Altitude := Altitude dst; Error := Error dst |}
  | FAltitude =>
      {| Fix := Fix dst; Latitude := Latitude dst; Longitude := Longitude dst;
         Altitude := Altitude src; Error := Error dst |}
  | FError =>
      {| Fix := Fix dst; Latitude := Latitude dst; Longitude := Longitude dst;
         Altitude := Altitude dst; Error := Error src |}
  end.

(** Where [tpvFilter] is, with the report it was called on. *)
Inductive watcher_pc :=
| WIdle
| WLock (report : TPVReport)
| WStore (report : TPVReport) (f : field)
| WUnlock (report : TPVReport)
| WPrint (report : TPVReport).

(** Where the scan callback is, with its local [loc]. *)
Inductive scanner_pc :=
| SIdle
| SLock
| SLoad (f : field) (loc : LocationData)
| SUnlock (loc : LocationData)
| SUse (loc : LocationData).

Record Config := {
  locationMu : option goroutine;
  shared : LocationData;
  watcher : watcher_pc;
  reports : list TPVReport;
  scanner : scanner_pc;
  events : nat;
  snapshots : list LocationData
}.

(** Before [gps.Watch]: the mutex is free, [currentLocation] holds its zero
    value, [pending] reports and [n] discovery events are still to come. *)
Definition init (pending : list TPVReport) (n : nat) : Config :=
  {| locationMu := None;
     shared := zero_location;
     watcher := WIdle;
     reports := pending;
     scanner := SIdle;
     events := n;
     snapshots := [] |}.

Definition watcher_step (c : Config) : option Config :=
  match watcher c with
  | WIdle =>
      match reports c with
      | report :: rest =>
          Some {| locationMu := locationMu c; shared := shared c;
                  watcher := WLock report; reports := rest;
                  scanner := scanner c; events := events c;
                  snapshots := snapshots c |}
      | [] => None
      end
  | WLock report =>
      match locationMu c with
      | None =>
          Some {| locationMu := Some Watcher; shared := shared c;
                  watcher := WStore report FFix; reports := reports c;
                  scanner := scanner c; events := events c;
                  snapshots := snapshots c |}
      | Some _ => None
      end
  | WStore report f =>
      Some {| locationMu := locationMu c;
              shared := copy_field f (location_of_report report) (shared c);
              watcher :=
                match next_field f with
                | Some g => WStore report g
                | None => WUnlock report
                end;
              reports := reports c;
              scanner := scanner c; events := events c;
              snapshots := snapshots c |}
  | WUnlock report =>
      Some {| locationMu := None; shared := shared c;
              watcher := WPrint report; reports := reports c;
              scanner := scanner c; events := events c;
              snapshots := snapshots c |}
  | WPrint _ =>
      Some {| locationMu := locationMu c; shared := shared c;
              watcher := WIdle; reports := reports c;
              scanner := scanner c; events := events c;
              snapshots := snapshots c |}
  end.

Definition scanner_step (c : Config) : option Config :=
  match scanner c with
  | SIdle =>
      match events c with
      | S n =>
          Some {| locationMu := locationMu c; shared := shared c;
                  watcher := watcher c; reports := reports c;
                  scanner := SLock; events := n;
                  snapshots := snapshots c |}
      | O => None
      end
  | SLock =>
      match locationMu c with
      | None =>
          Some {| locationMu := Some Scanner; shared := shared c;
                  watcher := watcher c; reports := reports c;
                  scanner := SLoad FFix zero_location; events := events c;
                  snapshots := snapshots c |}
      | Some _ => None
      end
  | SLoad f loc =>
      let loc' := copy_field f (shared c) loc in
      Some {| locationMu := locationMu c; shared := shared c;
              watcher := watcher c; reports := reports c;
              scanner :=
                match next_field f with
                | Some g => SLoad g loc'
                | None => SUnlock loc'
                end;
              events := events c;
              snapshots := snapshots c |}
  | SUnlock loc =>
      Some {| locationMu := None; shared := shared c;
              watcher := watcher c; reports := reports c;
              scanner := SUse loc; events := events c;
              snapshots := snapshots c |}
  | SUse loc =>
      Some {| locationMu := locationMu c; shared := shared c;
              watcher := watcher c; reports := reports c;
              scanner := SIdle; events := events c;
              snapshots := snapshots c ++ [loc] |}
  end.

(** The goroutine [g] moves if it can; blocked or finished, it waits. *)
Definition step (c : Config) (g : goroutine) : Config :=
  let next :=
    match g with
    | Watcher => watcher_step c
    | Scanner => scanner_step c
    end in
  default c next.

Definition run (c : Config) (schedule : list goroutine) : Config :=
  fold_left step schedule c.

(** [loc] is the zero value or what one of [updates] stores. *)
Definition from_one_update (updates : list TPVReport) (loc : LocationData)
    : Prop :=
  loc = zero_location \/ exists report, In report updates /\ loc = location_of_report report.

(** The fields stored or loaded before [f] are those of [b] already. *)
Definition agree_before (f : field) (a b : LocationData) : Prop :=
  match f with
  | FFix => True
  | FLatitude => Fix a = Fix b
  | FLongitude => Fix a = Fix b /\ Latitude a = Latitude b
  | FAltitude =>
      Fix a = Fix b /\ Latitude a = Latitude b /\ Longitude a = Longitude b
  | FError =>
      Fix a = Fix b /\ Latitude a = Latitude b /\ Longitude a = Longitude b
      /\ Altitude a = Altitude b
  end.

(** What holds of the watcher at each of its program points. *)
Definition watcher_inv (updates : list TPVReport) (c : Config) : Prop :=
  match watcher c with
  | WIdle | WPrint _ =>
      locationMu c <> Some Watcher /\ from_one_update updates (shared c)
  | WLock report =>
      In report updates
      /\ locationMu c <> Some Watcher /\ from_one_update updates (shared c)
  | WStore report f =>
      In report updates
      /\ locationMu c = Some Watcher
      /\ agree_before f (shared c) (location_of_report report)
  | WUnlock report =>
      In report updates
      /\ locationMu c = Some Watcher
      /\ shared c = location_of_report report
  end.

(** What holds of the scan callback at each of its program points. *)
Definition scanner_inv (updates : list TPVReport) (c : Config) : Prop :=
  match scanner c with
  | SIdle | SLock => locationMu c <> Some Scanner
  | SLoad f loc =>
      locationMu c = Some Scanner /\ agree_before f loc (shared c)
  | SUnlock loc => locationMu c = Some Scanner /\ loc = shared c
  | SUse loc =>
      locationMu c <> Some Scanner /\ from_one_update updates loc
  end.

Definition invariant (updates : list TPVReport) (c : Config) : Prop :=
  incl (reports c) updates
  /\ watcher_inv updates c
  /\ scanner_inv updates c
  /\ Forall (from_one_update updates) (snapshots c).

End Interleaving.

(** ** Further notions for the properties of the code *)

(** The object path that [getDeviceClass] asks BlueZ about for [addr]. *)
Definition device_path (addr : string) : string :=
  "/org/bluez/hci0/dev_" ++ ReplaceAll addr ":" "_".

(** Whether the character [c] occurs in [s]. *)
Fixpoint occurs (c : ascii) (s : string) : bool :=
  match s with
  | EmptyString => false
  | String c' s' => Ascii.eqb c' c || occurs c s'
  end.

(** Every call that [main] makes before it scans has succeeded. *)
Definition startup_ok (s : Startup) : bool :=
  match enable_error s, dial_error s, system_bus_error s,
        mkdir_error s, create_error s with
  | None, None, None, None, None => true
  | _, _, _, _, _ => false
  end.

(** The input is a discovery event for the address [addr]. *)
Definition discovery_of (addr : string) (i : Input) : bool :=
  match i with
  | Discovery _ _ device => String.eqb (Address device) addr
  | _ => false
  end.

(** The last position report among the inputs, if there is one. *)
Fixpoint last_report (inputs : list Input) : option TPVReport :=
  match inputs with
  | [] => None
  | i :: rest =>
      match last_report rest with
      | Some report => Some report
      | None =>
          match i with
          | PositionReport report => Some report
          | _ => None
          end
      end
  end.

(** The number of lines that the inputs make the process print: one for
    each report, one for each discovery event handled by the callback, one
    for a scan that returns an error. *)
Fixpoint lines_due (intSize : Z) (unrepresentable_int : float64 -> Z)
    (p : Process) (inputs : list Input) : nat :=
  match inputs with
  | [] => 0
  | i :: rest =>
      match p, i with
      | Scanning _, PositionReport _ => 1
      | Scanning _, Discovery _ _ _ => 1
      | Scanning _, ScanReturned (Some _) => 1
      | Spinning _, PositionReport _ => 1
      | _, _ => 0
      end
      + lines_due intSize unrepresentable_int
          (deliver intSize unrepresentable_int p i) rest
  end%nat.

(** The log and the registry tell the same story: every data row is for a
    registered address and shows its recorded time, and every registered
    address has a row. *)
Definition log_matches_registry (st : State) : Prop :=
  exists rows,
    csv st = header :: rows
    /\ (forall row, In row rows ->
          exists addr t,
            row !! 0%nat = Some addr
            /\ firstSeen st !! addr = Some t
            /\ row !! 3%nat = Some (Format_date_time t))
    /\ (forall addr t, firstSeen st !! addr = Some t ->
          exists row, In row rows /\ row !! 0%nat = Some addr).

(** Who is between [Lock] and [Unlock] in the interleaved callbacks. *)
Module Critical.

Import Interleaving.

Definition watcher_inside (c : Config) : bool :=
  match watcher c with
  | WStore _ _ | WUnlock _ => true
  | WIdle | WLock _ | WPrint _ => false
  end.

Definition scanner_inside (c : Config) : bool :=
  match scanner c with
  | SLoad _ _ | SUnlock _ => true
  | SIdle | SLock | SUse _ => false
  end.

(** The mutex is held exactly by the goroutine inside its critical
    section, and at most one is inside. *)
Definition lock_inv (c : Config) : Prop :=
  locationMu c =
    (if watcher_inside c then Some Watcher
     else if scanner_inside c then Some Scanner
     else None)
  /\ watcher_inside c && scanner_inside c = false.

(** The discovery events that have entered the callback and not yet used
    their snapshot. *)
Definition scanner_busy (c : Config) : nat :=
  match scanner c with
  | SIdle => 0
  | SLock | SLoad _ _ | SUnlock _ | SUse _ => 1
  end.

(** Both goroutines have nothing left to do. *)
Definition finished (c : Config) : Prop :=
  watcher c = WIdle /\ reports c = [] /\ scanner c = SIdle /\ events c = O.

(** The location that the reports [done], stored one after the other,
    leave behind. *)
Definition location_after (done : list TPVReport) : LocationData :=
  match rev done with
  | [] => zero_location
  | report :: _ => location_of_report report
  end.

(** How far the watcher is through the [pending] reports, and what
    [currentLocation] holds at each of its program points. *)
Definition stored_inv (pending : list TPVReport) (c : Config) : Prop :=
  match watcher c with
  | WIdle =>
      exists done,
        pending = (done ++ reports c)%list
        /\ shared c = location_after done
  | WLock report =>
      exists done,
        pending = (done ++ report :: reports c)%list
        /\ shared c = location_after done
  | WStore report f =>
      exists done,
        pending = (done ++ report :: reports c)%list
        /\ agree_before f (shared c) (location_of_report report)
  | WUnlock report | WPrint report =>
      exists done,
        pending = (done ++ report :: reports c)%list
        /\ shared c = location_of_report report
  end.

End Critical.

(** ** The menu script [payload.sh]: combining two logs

    The regular files are a map from paths to the lists of their lines,
    every line ended by a line feed. [bluetooth] and [wifi] are the names
    of the newest CSV that [ls -t] finds in each directory, if there is
    one, [running] is what [pgrep wiglebluetooth] finds and [stamp] is the
    output of [date +%Y%m%d_%H%M%S]. *)

Module Payload.





Section Script.

(** What [tail -n +3 f >> f] leaves in a file [f] with the given lines:
    [tail] then reads the file that its own output is appended to, and the
    result depends on how it buffers. *)
Variable tail_onto_itself : list string -> list string.




End Script.





End Payload.

(** * Properties *)

(** ** The capability encoder *)

(** A property checked on every natural number below [n] holds below [n]. *)
Lemma forallb_below (P : Z -> bool) (n : Z) :
  forallb P (map Z.of_nat (seq 0 (Z.to_nat n))) = true ->
  forall k, 0 <= k < n -> P k = true.
Proof.
  intros Hall k Hk.
  rewrite forallb_forall in Hall.
  apply Hall.
  apply in_map_iff.
  exists (Z.to_nat k).
  split; [lia|].
  apply in_seq. lia.
Qed.

Lemma mask_idempotent (class : Z) :
  Z.land (Z.land class 0x1FFC) 0x1FFC = Z.land class 0x1FFC.
Proof.
  rewrite <- Z.land_assoc. reflexivity.
Qed.

(** The masked class fits in thirteen bits. *)
Lemma mask_range (class : Z) : 0 <= Z.land class 0x1FFC < 8192.
Proof.
  assert (H : Z.land class 0x1FFC = Z.land class 0x1FFC mod 2 ^ 13).
  { rewrite <- Z.land_ones by lia.
    rewrite <- Z.land_assoc. reflexivity. }
  rewrite H.
  apply Z.mod_pos_bound. lia.
Qed.

(** The mask keeps the bits at positions 2 to 12 and no other. *)
Lemma mask_bits (i : Z) :
  Z.testbit 0x1FFC i = (2 <=? i) && (i <=? 12).
Proof.
  destruct (Z.ltb_spec i 0) as [Hneg|Hpos].
  - rewrite Z.testbit_neg_r by lia.
    symmetry. apply andb_false_iff. left. apply Z.leb_gt. lia.
  - destruct (Z.ltb_spec i 13) as [Hlow|Hhigh].
    + revert i Hpos Hlow.
      assert (Hall : forall k, 0 <= k < 13 ->
                (Bool.eqb (Z.testbit 0x1FFC k) ((2 <=? k) && (k <=? 12))) = true).
      { apply forallb_below. vm_compute. reflexivity. }
      intros i Hpos Hlow.
      apply Bool.eqb_prop. apply Hall. lia.
    + rewrite Z.bits_above_log2; [|lia|simpl; lia].
      symmetry. apply andb_false_iff. right. apply Z.leb_gt. lia.
Qed.

(** Classes that agree on bits 2 to 12 have the same masked value. *)
Lemma mask_agree (c c' : Z) :
  (forall i, 2 <= i <= 12 -> Z.testbit c i = Z.testbit c' i) ->
  Z.land c 0x1FFC = Z.land c' 0x1FFC.
Proof.
  intros Hbits.
  apply Z.bits_inj'. intros i _.
  rewrite !Z.land_spec, mask_bits.
  destruct (Z.leb_spec 2 i); destruct (Z.leb_spec i 12); simpl;
    rewrite ?andb_false_r; try reflexivity.
  rewrite !andb_true_r. apply Hbits. lia.
Qed.

(** Case analysis on the bits of a class, low bit first, until the
    [switch] and the table both reduce. *)
Ltac split_bits p :=
  first [ split; reflexivity
        | destruct p as [p|p|]; split_bits p ].

(** The [switch] and the table agree on every value, and no name of the
    legend is empty. *)
Lemma deviceTypeLegend_cases (k : Z) :
  deviceTypeLegend k = default "Misc" (legend_lookup k)
  /\ String.eqb (deviceTypeLegend k) "" = false.
Proof.
  destruct k as [|p|p]; [split; reflexivity| |split; reflexivity].
  split_bits p.
Qed.

Lemma deviceTypeLegend_table (k : Z) :
  deviceTypeLegend k = default "Misc" (legend_lookup k).
Proof. apply deviceTypeLegend_cases. Qed.

(** The bare ["[LE]"] is never returned. *)
Lemma buildCapabilities_eq (class : Z) :
  buildCapabilities class = deviceTypeLegend (Z.land class 0x1FFC) ++ " [LE]".
Proof.
  unfold buildCapabilities.
  destruct (deviceTypeLegend_cases (Z.land class 0x1FFC)) as [_ Hname].
  rewrite Hname. reflexivity.
Qed.

(** The [case] labels are distinct, as a [switch] requires. *)
Lemma legend_keys_distinct : NoDup (map fst legend_cases).
Proof.
  apply (bool_decide_unpack _). vm_compute. exact I.
Qed.

(** The label 0x0456 has bit 1 set: no masked class reaches its case. *)
Lemma camcorder_label_unreachable (class : Z) :
  Z.land class 0x1FFC <> 0x0456
  /\ buildCapabilities 0x0456 = "Misc [LE]".
Proof.
  split; [|reflexivity].
  intros Heq.
  assert (Hbit : Z.testbit (Z.land class 0x1FFC) 1 = Z.testbit 0x0456 1)
    by (rewrite Heq; reflexivity).
  rewrite Z.land_spec, mask_bits in Hbit.
  rewrite andb_false_r in Hbit. discriminate.
Qed.

(** C2: for every class code, [buildCapabilities] returns the name that the
    table gives for the masked code followed by " [LE]", and "Misc [LE]"
    when the masked code is not a key; 0x0100, 0x020C and 0x1F00 give
    "Computer [LE]", "Smartphone [LE]" and "Uncategorized [LE]", and 0
    gives "Misc [LE]". *)
Theorem buildCapabilities_legend :
  (forall class : Z,
     buildCapabilities class =
       match legend_lookup (Z.land class 0x1FFC) with
       | Some name => name ++ " [LE]"
       | None => "Misc [LE]"
       end)
  /\ buildCapabilities 0x0100 = "Computer [LE]"
  /\ buildCapabilities 0x020C = "Smartphone [LE]"
  /\ buildCapabilities 0x1F00 = "Uncategorized [LE]"
  /\ buildCapabilities 0 = "Misc [LE]".
Proof.
  split; [|repeat split; reflexivity].
  intros class.
  rewrite buildCapabilities_eq.
  rewrite deviceTypeLegend_table.
  destruct (legend_lookup (Z.land class 0x1FFC)); reflexivity.
Qed.

(** C5: [buildCapabilities] is defined on every class code, classes that
    agree on bits 2 to 12 get the same result, and the result is that of
    the masked class. *)
Theorem buildCapabilities_mask_invariant (c c' : Z) :
  (forall i, 2 <= i <= 12 -> Z.testbit c i = Z.testbit c' i) ->
  buildCapabilities c = buildCapabilities c'
  /\ buildCapabilities c = buildCapabilities (Z.land c 0x1FFC).
Proof.
  intros Hbits.
  rewrite !buildCapabilities_eq.
  rewrite mask_idempotent.
  rewrite (mask_agree c c' Hbits).
  split; reflexivity.
Qed.

(** ** The scan callback and the rows it writes *)

Section Correlation.

Variable intSize : Z.
Variable unrepresentable_int : float64 -> Z.

Local Abbreviation callback := (scan_callback intSize unrepresentable_int).
Local Abbreviation deliver := (deliver intSize unrepresentable_int).
Local Abbreviation run := (run intSize unrepresentable_int).
Local Abbreviation main := (main intSize unrepresentable_int).

(** The filter stores the location of its report. *)
Lemma tpvFilter_stores report st :
  currentLocation (tpvFilter report st) = location_of_report report
  /\ firstSeen (tpvFilter report st) = firstSeen st
  /\ csv (tpvFilter report st) = csv st.
Proof. repeat split; reflexivity. Qed.

Lemma callback_without_fix conn now device st :
  Fix (currentLocation st) = false ->
  callback conn now device st =
    print ("No GPS fix, skipping device: " ++ Address device ++ nl) st.
Proof.
  intros Hfix. unfold scan_callback. rewrite Hfix. reflexivity.
Qed.

(** With a fix the callback appends one row; its fields, by column. *)
Lemma callback_with_fix conn now device st :
  Fix (currentLocation st) = true ->
  exists row,
    csv (callback conn now device st) = (csv st ++ [row])%list
    /\ length row = 14%nat
    /\ row !! 0%nat = Some (Address device)
    /\ row !! 2%nat =
         Some (buildCapabilities (getDeviceClass conn (Address device)))
    /\ row !! 3%nat =
         Some (Format_date_time
                 (default zero_Time
                    (firstSeen (callback conn now device st)
                       !! Address device)))
    /\ row !! 4%nat = Some "0"
    /\ row !! 5%nat =
         Some (fmt_d (Z.land (getDeviceClass conn (Address device)) 0x1FFC))
    /\ row !! 6%nat = Some (fmt_d (RSSI device))
    /\ row !! 7%nat = Some (fmt_f (Latitude (currentLocation st)))
    /\ row !! 8%nat = Some (fmt_f (Longitude (currentLocation st)))
    /\ row !! 9%nat =
         Some (fmt_d (int_of_float64 intSize unrepresentable_int
                        (Altitude (currentLocation st))))
    /\ row !! 11%nat = Some ""
    /\ row !! 13%nat = Some "BLE"
    /\ row !! 1%nat = Some (LocalName device)
    /\ row !! 10%nat = Some (fmt_f (Error (currentLocation st)))
    /\ row !! 12%nat =
         Some match ManufacturerData device with
              | md :: _ => fmt_d (CompanyID md)
              | [] => ""
              end.
Proof.
  intros Hfix. unfold scan_callback. rewrite Hfix. simpl.
  eexists. split; [reflexivity|].
  repeat split; reflexivity.
Qed.

Lemma callback_firstSeen_kept conn now device st addr t :
  firstSeen st !! addr = Some t ->
  firstSeen (callback conn now device st) !! addr = Some t.
Proof.
  intros Hseen. unfold scan_callback.
  destruct (Fix (currentLocation st)); simpl; [|exact Hseen].
  destruct (firstSeen st !! Address device) eqn:Hdev; simpl; [exact Hseen|].
  rewrite lookup_insert_ne; [exact Hseen|].
  intros Heq. rewrite Heq in Hdev. congruence.
Qed.

Lemma callback_first_touch conn now device st :
  Fix (currentLocation st) = true ->
  firstSeen st !! Address device = None ->
  firstSeen (callback conn now device st) !! Address device = Some now.
Proof.
  intros Hfix Hnew. unfold scan_callback. rewrite Hfix, Hnew. simpl.
  apply lookup_insert_eq.
Qed.

Lemma deliver_first_seen p i st addr t :
  state_of p = Some st ->
  firstSeen st !! addr = Some t ->
  exists st' new,
    state_of (deliver p i) = Some st'
    /\ firstSeen st' !! addr = Some t
    /\ csv st' = (csv st ++ new)%list
    /\ rows_first_seen addr t new.
Proof.
  intros Hp Hseen.
  assert (Hsame : forall st0, st0 = st ->
            firstSeen st0 !! addr = Some t /\ csv st0 = (csv st ++ [])%list
            /\ rows_first_seen addr t []).
  { intros st0 ->. rewrite app_nil_r. repeat split; [exact Hseen|constructor]. }
  assert (Hcb : forall conn now device,
            exists new,
              firstSeen (callback conn now device st) !! addr = Some t
              /\ csv (callback conn now device st) = (csv st ++ new)%list
              /\ rows_first_seen addr t new).
  { intros conn now device.
    pose proof (callback_firstSeen_kept conn now device st addr t Hseen) as Hk.
    destruct (Fix (currentLocation st)) eqn:Hfix.
    - destruct (callback_with_fix conn now device st Hfix)
        as (row & Hcsv & _ & Hmac & _ & Hfs & _).
      exists [row]. repeat split; [exact Hk|exact Hcsv|].
      constructor; [|constructor].
      intros Haddr. rewrite Hmac in Haddr.
      injection Haddr as Haddr. rewrite Haddr in Hfs.
      rewrite Hk in Hfs. exact Hfs.
    - exists []. rewrite (callback_without_fix _ _ _ _ Hfix). simpl.
      rewrite app_nil_r. repeat split; [exact Hseen|constructor]. }
  destruct p as [message|st0|st0]; simpl in Hp; [discriminate| |];
    injection Hp as ->.
  - destruct i as [report|now conn device|[err|]]; simpl.
    + exists (tpvFilter report st), []. split; [reflexivity|].
      simpl. rewrite app_nil_r. repeat split; [exact Hseen|constructor].
    + destruct (Hcb conn now device) as (new & H1 & H2 & H3).
      exists (callback conn now device st), new. repeat split; assumption.
    + eexists _, []. split; [reflexivity|]. simpl.
      rewrite app_nil_r. repeat split; [exact Hseen|constructor].
    + exists st, []. split; [reflexivity|]. apply Hsame. reflexivity.
  - destruct i as [report|now conn device|err]; simpl.
    + exists (tpvFilter report st), []. split; [reflexivity|].
      simpl. rewrite app_nil_r. repeat split; [exact Hseen|constructor].
    + exists st, []. split; [reflexivity|]. apply Hsame. reflexivity.
    + exists st, []. split; [reflexivity|]. apply Hsame. reflexivity.
Qed.

Lemma run_first_seen inputs : forall p st addr t,
  state_of p = Some st ->
  firstSeen st !! addr = Some t ->
  exists st' new,
    state_of (run p inputs) = Some st'
    /\ firstSeen st' !! addr = Some t
    /\ csv st' = (csv st ++ new)%list
    /\ rows_first_seen addr t new.
Proof.
  induction inputs as [|i inputs IH]; intros p st addr t Hp Hseen.
  - exists st, []. simpl. rewrite app_nil_r.
    repeat split; [exact Hp|exact Hseen|constructor].
  - destruct (deliver_first_seen p i st addr t Hp Hseen)
      as (st1 & new1 & Hp1 & Hseen1 & Hcsv1 & Hrows1).
    destruct (IH (deliver p i) st1 addr t Hp1 Hseen1)
      as (st2 & new2 & Hp2 & Hseen2 & Hcsv2 & Hrows2).
    exists st2, (new1 ++ new2)%list. simpl.
    repeat split; [exact Hp2|exact Hseen2| |].
    + rewrite Hcsv2, Hcsv1. symmetry. apply app_assoc.
    + apply Forall_app. split; assumption.
Qed.

(** A row appears only when the stored location has a fix. *)
Lemma row_needs_fix conn now device st :
  csv (callback conn now device st) <> csv st ->
  Fix (currentLocation st) = true.
Proof.
  intros Hrow.
  destruct (Fix (currentLocation st)) eqn:Hfix; [reflexivity|].
  rewrite (callback_without_fix _ _ _ _ Hfix) in Hrow.
  exfalso. apply Hrow. reflexivity.
Qed.

(** Over a whole run the log grows by one row for each discovery event
    that is handled with a fix, and by nothing else. *)
Lemma rows_counted inputs : forall p st,
  state_of p = Some st ->
  exists st',
    state_of (run p inputs) = Some st'
    /\ length (csv st')
       = (length (csv st) + rows_due intSize unrepresentable_int p inputs)%nat.
Proof.
  induction inputs as [|i inputs IH]; intros p st Hp.
  - exists st. split; [exact Hp|simpl; lia].
  - assert (Hstep : exists st1,
              state_of (deliver p i) = Some st1
              /\ length (csv st1)
                 = (length (csv st)
                    + match p, i with
                      | Scanning st0, Discovery _ _ _ =>
                          if Fix (currentLocation st0) then 1 else 0
                      | _, _ => 0
                      end)%nat).
    { destruct p as [message|st0|st0]; simpl in Hp; [discriminate| |];
        injection Hp as ->.
      - destruct i as [report|now conn device|[err|]]; simpl;
          try (eexists; split; [reflexivity|simpl; lia]).
        exists (callback conn now device st). split; [reflexivity|].
        destruct (Fix (currentLocation st)) eqn:Hfix.
        + destruct (callback_with_fix conn now device st Hfix)
            as (row & Hrow & _).
          rewrite Hrow, length_app. simpl. lia.
        + rewrite (callback_without_fix _ _ _ _ Hfix). simpl. lia.
      - destruct i as [report|now conn device|err]; simpl;
          eexists; (split; [reflexivity|simpl; lia]). }
    destruct Hstep as (st1 & Hp1 & Hlen1).
    destruct (IH (deliver p i) st1 Hp1) as (st' & Hst' & Hlen').
    exists st'. split; [exact Hst'|].
    rewrite Hlen', Hlen1. simpl. lia.
Qed.

(** C1: a discovery event handled while the stored location has no fix
    writes no row and records nothing, and the scan goes on; so a row is
    written only for an event handled with a fix. *)
Theorem no_row_without_fix conn now device st :
  Fix (currentLocation st) = false ->
  csv (callback conn now device st) = csv st
  /\ firstSeen (callback conn now device st) = firstSeen st
  /\ deliver (Scanning st) (Discovery now conn device)
     = Scanning (callback conn now device st).
Proof.
  intros Hfix. simpl.
  rewrite (callback_without_fix _ _ _ _ Hfix).
  repeat split; reflexivity.
Qed.

(** C3: once an address is touched for the first time, at [now], whatever
    reaches the process afterwards leaves [now] in the registry for it, and
    every row written for that address from then on, the first included,
    has the formatted [now] as FirstSeen. *)
Theorem first_seen_write_once conn now device st inputs :
  Fix (currentLocation st) = true ->
  firstSeen st !! Address device = None ->
  exists st' rows,
    state_of (run (Scanning st) (Discovery now conn device :: inputs))
      = Some st'
    /\ firstSeen st' !! Address device = Some now
    /\ csv st' = (csv st ++ rows)%list
    /\ rows <> []
    /\ rows_first_seen (Address device) now rows.
Proof.
  intros Hfix Hnew.
  pose proof (callback_first_touch conn now device st Hfix Hnew) as Htouch.
  destruct (callback_with_fix conn now device st Hfix)
    as (row & Hcsv & _ & Hmac & _ & Hfs & _).
  destruct (run_first_seen inputs (Scanning (callback conn now device st))
              _ _ _ eq_refl Htouch)
    as (st' & new & Hst' & Hseen & Hcsv' & Hrows).
  exists st', (row :: new). simpl.
  repeat split.
  - exact Hst'.
  - exact Hseen.
  - rewrite Hcsv', Hcsv. rewrite <- app_assoc. reflexivity.
  - discriminate.
  - constructor; [|exact Hrows].
    intros _. rewrite Hfs, Htouch. reflexivity.
Qed.

Lemma deliver_log_shape p i st :
  state_of p = Some st ->
  log_shape st ->
  exists st', state_of (deliver p i) = Some st' /\ log_shape st'.
Proof.
  intros Hp Hshape.
  assert (Hcb : forall conn now device,
            log_shape (callback conn now device st)).
  { intros conn now device.
    destruct Hshape as (rows & Hcsv & Hrows).
    destruct (Fix (currentLocation st)) eqn:Hfix.
    - destruct (callback_with_fix conn now device st Hfix)
        as (row & Hrow & Hlen & _ & _ & _ & Hch & _ & _ & _ & _ & _ & Hrc & Hty & _).
      exists (rows ++ [row])%list. split.
      + rewrite Hrow, Hcsv. reflexivity.
      + apply Forall_app. split; [exact Hrows|].
        constructor; [|constructor]. repeat split; assumption.
    - rewrite (callback_without_fix _ _ _ _ Hfix).
      exists rows. split; [exact Hcsv|exact Hrows]. }
  destruct p as [message|st0|st0]; simpl in Hp; [discriminate| |];
    injection Hp as ->.
  - destruct i as [report|now conn device|[err|]]; simpl;
      eexists; (split; [reflexivity|]); try exact Hshape; apply Hcb.
  - destruct i as [report|now conn device|err]; simpl;
      eexists; (split; [reflexivity|]); exact Hshape.
Qed.

Lemma run_log_shape inputs : forall p st,
  state_of p = Some st ->
  log_shape st ->
  exists st', state_of (run p inputs) = Some st' /\ log_shape st'.
Proof.
  induction inputs as [|i inputs IH]; intros p st Hp Hshape.
  - exists st. split; assumption.
  - destruct (deliver_log_shape p i st Hp Hshape) as (st1 & Hp1 & Hshape1).
    exact (IH _ _ Hp1 Hshape1).
Qed.

Lemma main_start_log_shape s st :
  state_of (main_start s) = Some st -> log_shape st.
Proof.
  unfold main_start, must.
  destruct (enable_error s); [discriminate|].
  destruct (dial_error s); [discriminate|].
  destruct (system_bus_error s); [discriminate|].
  destruct (mkdir_error s); [discriminate|].
  destruct (create_error s); [discriminate|].
  simpl. intros Hst. injection Hst as <-.
  exists []. split; [reflexivity|constructor].
Qed.

(** C4: whenever the log file exists, its first record is the fourteen
    column names, the same for every startup and every sequence of inputs,
    and every record after it has fourteen fields with Channel "0", RCOIs
    empty and Type "BLE". *)
Theorem log_schema s inputs st :
  state_of (main s inputs) = Some st ->
  exists rows,
    csv st =
      [ "MAC"; "SSID"; "AuthMode"; "FirstSeen"; "Channel"; "Frequency";
        "RSSI"; "CurrentLatitude"; "CurrentLongitude"; "AltitudeMeters";
        "AccuracyMeters"; "RCOIs"; "MfgrId"; "Type" ] :: rows
    /\ Forall (fun row => length row = 14%nat
                          /\ row !! 4%nat = Some "0"
                          /\ row !! 11%nat = Some ""
                          /\ row !! 13%nat = Some "BLE") rows.
Proof.
  intros Hst.
  change (state_of (run (main_start s) inputs) = Some st) in Hst.
  destruct (state_of (main_start s)) as [st0|] eqn:Hstart.
  - destruct (run_log_shape inputs _ _ Hstart (main_start_log_shape _ _ Hstart))
      as (st' & Hst' & Hshape).
    rewrite Hst in Hst'. injection Hst' as <-.
    exact Hshape.
  - exfalso.
    destruct (main_start s) as [message| |]; try discriminate.
    clear Hstart. revert Hst.
    induction inputs as [|i inputs IH]; simpl; [discriminate|exact IH].
Qed.

(** C6: when the property lookup fails or yields a value that is not a
    [uint32], [getDeviceClass] is 0, the row written for the event has
    AuthMode "Misc [LE]" and Frequency "0", and the inputs that follow are
    served from the state the callback left. *)
Theorem class_lookup_degrades conn now device st inputs :
  lookup_failed conn (Address device) = true ->
  Fix (currentLocation st) = true ->
  getDeviceClass conn (Address device) = 0
  /\ (exists row,
        csv (callback conn now device st) = (csv st ++ [row])%list
        /\ row !! 2%nat = Some "Misc [LE]"
        /\ row !! 5%nat = Some "0")
  /\ run (Scanning st) (Discovery now conn device :: inputs)
     = run (Scanning (callback conn now device st)) inputs.
Proof.
  intros Hfail Hfix.
  assert (Hclass : getDeviceClass conn (Address device) = 0).
  { unfold lookup_failed in Hfail. unfold getDeviceClass.
    destruct (conn _ _ _) as [[v|sig]|err]; [discriminate|reflexivity..]. }
  split; [exact Hclass|]. split; [|reflexivity].
  destruct (callback_with_fix conn now device st Hfix)
    as (row & Hrow & _ & _ & Hauth & _ & _ & Hfreq & _).
  exists row. rewrite Hclass in Hauth, Hfreq.
  repeat split; assumption.
Qed.

(** C7: after the mode-3 report at 37, -122, altitude 10 and error 5, an
    event whose class resolves to 0x020C and whose RSSI is -60 writes a row
    with AuthMode "Smartphone [LE]", Frequency "524", RSSI "-60", latitude
    "37.000000" and longitude "-122.000000". *)
Theorem scenario_smartphone conn now device st :
  currentLocation st = location_of_report scenario_report ->
  getDeviceClass conn (Address device) = 0x020C ->
  RSSI device = -60 ->
  exists row,
    csv (callback conn now device st) = (csv st ++ [row])%list
    /\ row !! 2%nat = Some "Smartphone [LE]"
    /\ row !! 5%nat = Some "524"
    /\ row !! 6%nat = Some "-60"
    /\ row !! 7%nat = Some "37.000000"
    /\ row !! 8%nat = Some "-122.000000".
Proof.
  intros Hloc Hclass Hrssi.
  assert (Hfix : Fix (currentLocation st) = true) by (rewrite Hloc; reflexivity).
  destruct (callback_with_fix conn now device st Hfix)
    as (row & Hrow & _ & _ & Hauth & _ & _ & Hfreq & Hr & Hlat & Hlon & _).
  exists row. rewrite Hclass in Hauth, Hfreq. rewrite Hrssi in Hr.
  rewrite Hloc in Hlat, Hlon.
  repeat split; assumption.
Qed.

Lemma float64_trunc_quot x num den :
  float64_ratio x = Some (num, den) ->
  float64_trunc x = Some (num ÷ den).
Proof.
  destruct x as [s|s| |s m e]; simpl; try discriminate.
  - intros H. injection H as <- <-. reflexivity.
  - intros H. injection H as <- <-. f_equal.
    assert (Hmag : Z.shiftl (Z.pos m) e
                   = (Z.pos m * 2 ^ Z.max 0 e) ÷ 2 ^ Z.max 0 (- e)).
    { destruct (Z.le_gt_cases 0 e) as [Hpos|Hneg].
      - rewrite Z.shiftl_mul_pow2 by lia.
        rewrite (Z.max_r 0 e) by lia. rewrite (Z.max_l 0 (- e)) by lia.
        rewrite Z.quot_1_r. reflexivity.
      - rewrite Z.shiftl_div_pow2 by lia.
        rewrite (Z.max_l 0 e) by lia. rewrite (Z.max_r 0 (- e)) by lia.
        rewrite Z.mul_1_r.
        rewrite Z.quot_div_nonneg; [reflexivity|lia|].
        apply Z.pow_pos_nonneg; lia. }
    destruct s.
    + rewrite Z.quot_opp_l; [rewrite Hmag; reflexivity|].
      apply Z.pow_nonzero; lia.
    + exact Hmag.
Qed.

(** C10, as the code has it: for a row written from an altitude with the exact value
    [num / den] whose integer part fits in [int], AltitudeMeters is the
    decimal rendering of [num ÷ den], the quotient rounded toward zero. *)
Theorem altitude_truncated conn now device st num den :
  Fix (currentLocation st) = true ->
  float64_ratio (Altitude (currentLocation st)) = Some (num, den) ->
  - 2 ^ (intSize - 1) <= num ÷ den < 2 ^ (intSize - 1) ->
  exists row,
    csv (callback conn now device st) = (csv st ++ [row])%list
    /\ row !! 9%nat = Some (fmt_d (num ÷ den)).
Proof.
  intros Hfix Hratio Hfits.
  destruct (callback_with_fix conn now device st Hfix)
    as (row & Hrow & _ & _ & _ & _ & _ & _ & _ & _ & _ & Halt & _).
  exists row. split; [exact Hrow|].
  rewrite Halt. unfold int_of_float64.
  rewrite (float64_trunc_quot _ _ _ Hratio).
  replace (- 2 ^ (intSize - 1) <=? num ÷ den) with true
    by (symmetry; apply Z.leb_le; lia).
  replace (num ÷ den <? 2 ^ (intSize - 1)) with true
    by (symmetry; apply Z.ltb_lt; lia).
  reflexivity.
Qed.

Lemma run_spinning inputs : forall st,
  exists st' more,
    run (Spinning st) inputs = Spinning st'
    /\ stdout st' = (stdout st ++ more)%list
    /\ csv st' = csv st
    /\ firstSeen st' = firstSeen st.
Proof.
  induction inputs as [|i inputs IH]; intros st.
  - exists st, []. rewrite app_nil_r. repeat split; reflexivity.
  - destruct i as [report|now conn device|err]; simpl.
    + destruct (IH (tpvFilter report st)) as (st' & more & Hrun & Hout & Hcsv & Hfs).
      exists st'. eexists. split; [exact Hrun|].
      split; [|split; [exact Hcsv|exact Hfs]].
      rewrite Hout. simpl. rewrite <- app_assoc. reflexivity.
    + apply IH.
    + apply IH.
Qed.

(** C9, as the code has it: when [adapter.Scan] returns an error the
    failure is printed and the process does not exit: it stays in the final
    loop whatever arrives later, writes no further row and records no
    further address, so the scan is not started again. *)
Theorem scan_failure_reported_then_spins st err later :
  exists st' more,
    run (Scanning st) (ScanReturned (Some err) :: later) = Spinning st'
    /\ exited (run (Scanning st) (ScanReturned (Some err) :: later)) = false
    /\ stdout st' =
         (stdout st ++ [("failed to start scan: " ++ err ++ nl)%string] ++ more)%list
    /\ csv st' = csv st
    /\ firstSeen st' = firstSeen st.
Proof.
  simpl.
  destruct (run_spinning later
              (print ("failed to start scan: " ++ err ++ nl) st))
    as (st' & more & Hrun & Hout & Hcsv & Hfs).
  exists st', more. rewrite Hrun.
  repeat split; try assumption.
  rewrite Hout. simpl. rewrite <- app_assoc. reflexivity.
Qed.

End Correlation.

(** ** The location snapshot under interleaving *)

Module InterleavingFacts.

Import Interleaving.

Lemma copy_field_agree f a b :
  agree_before f a b ->
  match next_field f with
  | Some g => agree_before g (copy_field f b a) b
  | None => copy_field f b a = b
  end.
Proof.
  destruct a, b, f; simpl; intuition (subst; reflexivity).
Qed.

Lemma invariant_init pending n : invariant pending (init pending n).
Proof.
  repeat split.
  - apply incl_refl.
  - discriminate.
  - left. reflexivity.
  - simpl. discriminate.
  - constructor.
Qed.

Lemma watcher_step_invariant updates c c' :
  invariant updates c ->
  watcher_step c = Some c' ->
  invariant updates c'.
Proof.
  intros (Hincl & Hw & Hs & Hsnap).
  unfold watcher_step, watcher_inv, scanner_inv in *.
  destruct c as [mu sh w rs sc ev sn]; simpl in *.
  destruct w as [|report|report f|report|report].
  - destruct rs as [|report rest]; [discriminate|].
    intros H. injection H as <-.
    destruct Hw as (Hmu & Hsh).
    repeat split; simpl; try assumption.
    + intros r Hr. apply Hincl. right. exact Hr.
    + apply Hincl. left. reflexivity.
  - destruct mu as [g|]; [discriminate|].
    intros H. injection H as <-.
    destruct Hw as (Hin & _ & Hsh).
    repeat split; simpl; try assumption.
    destruct sc; simpl in *; try discriminate;
      destruct Hs as [Hs Hs']; try discriminate; split; [discriminate|assumption].
  - intros H. injection H as <-.
    destruct Hw as (Hin & Hmu & Hagree).
    pose proof (copy_field_agree f sh (location_of_report report) Hagree)
      as Hnext.
    repeat split; simpl; try assumption.
    + unfold watcher_inv. simpl.
      destruct (next_field f); repeat split; assumption.
    + unfold scanner_inv. simpl.
      destruct sc; simpl in *; try assumption;
        destruct Hs as [Hs _]; congruence.
  - intros H. injection H as <-.
    destruct Hw as (Hin & Hmu & Hsh).
    repeat split; simpl; try assumption.
    + discriminate.
    + right. exists report. split; assumption.
    + destruct sc; simpl in *; try discriminate;
        destruct Hs as [Hs Hs']; try congruence;
        split; [discriminate|assumption].
  - intros H. injection H as <-.
    repeat split; simpl; try assumption; apply Hw.
Qed.

Lemma scanner_step_invariant updates c c' :
  invariant updates c ->
  scanner_step c = Some c' ->
  invariant updates c'.
Proof.
  intros (Hincl & Hw & Hs & Hsnap).
  unfold scanner_step, watcher_inv, scanner_inv in *.
  destruct c as [mu sh w rs sc ev sn]; simpl in *.
  destruct sc as [| |f loc|loc|loc].
  - destruct ev as [|n]; [discriminate|].
    intros H. injection H as <-.
    repeat split; simpl; assumption.
  - destruct mu as [g|]; [discriminate|].
    intros H. injection H as <-.
    repeat split; simpl; try assumption.
    destruct w; simpl in *;
      try (destruct Hw as (_ & Hmu & _); discriminate);
      try (destruct Hw as (Hw1 & Hw2));
      try (destruct Hw2 as (Hw2 & Hw3));
      repeat split; try assumption; discriminate.
  - intros H. injection H as <-.
    destruct Hs as (Hmu & Hagree).
    pose proof (copy_field_agree f loc sh Hagree) as Hnext.
    repeat split; simpl; try assumption.
    unfold scanner_inv. simpl.
    destruct (next_field f); split; assumption.
  - intros H. injection H as <-.
    destruct Hs as (Hmu & Hloc).
    assert (Hvalid : from_one_update updates sh).
    { destruct w; simpl in *;
        try (destruct Hw as (_ & Hmu' & _); congruence);
        try (destruct Hw as (_ & _ & Hsh); exact Hsh);
        destruct Hw as (_ & Hsh); exact Hsh. }
    repeat split; simpl; try assumption.
    + destruct w; simpl in *;
        try (destruct Hw as (_ & Hmu' & _); congruence);
        try (destruct Hw as (Hw1 & Hw2));
        try (destruct Hw2 as (Hw2 & Hw3));
        repeat split; try assumption; discriminate.
    + discriminate.
    + rewrite Hloc. exact Hvalid.
  - intros H. injection H as <-.
    destruct Hs as (Hmu & Hloc).
    repeat split; simpl; try assumption.
    apply Forall_app. split; [exact Hsnap|].
    constructor; [exact Hloc|constructor].
Qed.

Lemma step_invariant updates c g :
  invariant updates c -> invariant updates (step c g).
Proof.
  intros Hinv. unfold step.
  destruct g.
  - destruct (watcher_step c) as [c'|] eqn:Hstep; simpl; [|exact Hinv].
    exact (watcher_step_invariant updates c c' Hinv Hstep).
  - destruct (scanner_step c) as [c'|] eqn:Hstep; simpl; [|exact Hinv].
    exact (scanner_step_invariant updates c c' Hinv Hstep).
Qed.

Lemma run_invariant updates schedule : forall c,
  invariant updates c -> invariant updates (run c schedule).
Proof.
  induction schedule as [|g schedule IH]; intros c Hinv; [exact Hinv|].
  simpl. apply IH. apply step_invariant. exact Hinv.
Qed.

(** C8: under every schedule of the two callbacks, each location that the
    scan callback has copied under the mutex is the value stored by one
    single report, or the zero value from before the first report: its five
    fields never come from two different updates. *)
Theorem snapshot_from_one_update pending n schedule loc :
  In loc (snapshots (run (init pending n) schedule)) ->
  loc = zero_location
  \/ exists report,
       In report pending
       /\ Fix loc = (2 <=? Mode report)
       /\ Latitude loc = Lat report
       /\ Longitude loc = Lon report
       /\ Altitude loc = Alt report
       /\ Error loc = Eph report.
Proof.
  intros Hin.
  destruct (run_invariant pending schedule _ (invariant_init pending n))
    as (_ & _ & _ & Hsnap).
  rewrite Forall_forall in Hsnap.
  destruct (Hsnap loc) as [Hzero|(report & Hrep & Hloc)].
  - apply list_elem_of_In. exact Hin.
  - left. exact Hzero.
  - right. exists report. rewrite Hloc.
    repeat split; [exact Hrep|reflexivity..].
Qed.

End InterleavingFacts.

(** ** The properties at sample inputs *)

(** The scenario's report holds exactly 37, -122, 10 and 5. *)
Example scenario_report_exact :
  float64_ratio (Lat scenario_report) = Some (37 * 2 ^ 47, 2 ^ 47)
  /\ float64_ratio (Lon scenario_report) = Some (- (122 * 2 ^ 46), 2 ^ 46)
  /\ float64_ratio (Alt scenario_report) = Some (10 * 2 ^ 49, 2 ^ 49)
  /\ float64_ratio (Eph scenario_report) = Some (5 * 2 ^ 50, 2 ^ 50).
Proof. repeat split; reflexivity. Qed.

(** The sample altitudes are within half a unit in the last place of 10.9
    and of -3.7. *)
Example sample_altitudes_nearest :
  (exists num, float64_ratio altitude_10_9 = Some (num, 2 ^ 49)
               /\ Z.abs (10 * num - 109 * 2 ^ 49) <= 5)
  /\ (exists num, float64_ratio altitude_minus_3_7 = Some (num, 2 ^ 51)
                  /\ Z.abs (10 * num + 37 * 2 ^ 51) <= 5).
Proof.
  split; eexists; (split; [reflexivity|vm_compute; discriminate]).
Qed.

Lemma no_row_without_fix_witness :
  Fix (currentLocation sample_initial) = false
  /\ csv (scan_callback sample_intSize sample_unrepresentable
            sample_bus 1700000005000000000 sample_device sample_initial)
     = [header].
Proof.
  split; [reflexivity|].
  apply (no_row_without_fix sample_intSize sample_unrepresentable
           sample_bus 1700000005000000000 sample_device sample_initial).
  reflexivity.
Defined.

Lemma buildCapabilities_mask_invariant_witness :
  (forall i, 2 <= i <= 12 -> Z.testbit 0x5A020F i = Z.testbit 0x020C i)
  /\ buildCapabilities 0x5A020F = buildCapabilities 0x020C
  /\ buildCapabilities 0x5A020F = "Smartphone [LE]".
Proof.
  assert (Hbits : forall i, 2 <= i <= 12 ->
                    Z.testbit 0x5A020F i = Z.testbit 0x020C i).
  { intros i Hi.
    assert (Hcases : i = 2 \/ i = 3 \/ i = 4 \/ i = 5 \/ i = 6 \/ i = 7
                     \/ i = 8 \/ i = 9 \/ i = 10 \/ i = 11 \/ i = 12) by lia.
    repeat (destruct Hcases as [->|Hcases]; [reflexivity|]).
    rewrite Hcases. reflexivity. }
  split; [exact Hbits|].
  exact (buildCapabilities_mask_invariant 0x5A020F 0x020C Hbits).
Defined.

Lemma first_seen_write_once_witness :
  Fix (currentLocation sample_located) = true
  /\ firstSeen sample_located !! Address sample_device = None
  /\ exists st' rows,
       state_of (run sample_intSize sample_unrepresentable
                   (Scanning sample_located)
                   (Discovery 1700000005000000000 sample_bus sample_device
                    :: Discovery 1700000015000000000 mistyped_bus sample_device
                    :: []))
         = Some st'
       /\ firstSeen st' !! Address sample_device = Some 1700000005000000000
       /\ csv st' = (csv sample_located ++ rows)%list
       /\ rows <> []
       /\ rows_first_seen (Address sample_device) 1700000005000000000 rows.
Proof.
  split; [reflexivity|]. split; [reflexivity|].
  apply (first_seen_write_once sample_intSize sample_unrepresentable
           sample_bus 1700000005000000000 sample_device sample_located);
    reflexivity.
Defined.

Lemma log_schema_witness :
  state_of (main sample_intSize sample_unrepresentable
              sample_startup sample_inputs) = Some sample_final
  /\ exists rows,
       csv sample_final =
         [ "MAC"; "SSID"; "AuthMode"; "FirstSeen"; "Channel"; "Frequency";
           "RSSI"; "CurrentLatitude"; "CurrentLongitude"; "AltitudeMeters";
           "AccuracyMeters"; "RCOIs"; "MfgrId"; "Type" ] :: rows
       /\ Forall (fun row => length row = 14%nat
                             /\ row !! 4%nat = Some "0"
                             /\ row !! 11%nat = Some ""
                             /\ row !! 13%nat = Some "BLE") rows.
Proof.
  split; [reflexivity|].
  apply (log_schema sample_intSize sample_unrepresentable
           sample_startup sample_inputs sample_final).
  reflexivity.
Defined.

Lemma class_lookup_degrades_witness :
  lookup_failed mistyped_bus (Address sample_device) = true
  /\ Fix (currentLocation sample_located) = true
  /\ getDeviceClass mistyped_bus (Address sample_device) = 0
  /\ exists row,
       csv (scan_callback sample_intSize sample_unrepresentable
              mistyped_bus 1700000015000000000 sample_device sample_located)
         = (csv sample_located ++ [row])%list
       /\ row !! 2%nat = Some "Misc [LE]"
       /\ row !! 5%nat = Some "0".
Proof.
  split; [reflexivity|]. split; [reflexivity|].
  destruct (class_lookup_degrades sample_intSize sample_unrepresentable
              mistyped_bus 1700000015000000000 sample_device sample_located
              [] eq_refl eq_refl) as (Hclass & Hrow & _).
  split; [exact Hclass|exact Hrow].
Defined.

Lemma scenario_smartphone_witness :
  currentLocation sample_located = location_of_report scenario_report
  /\ getDeviceClass sample_bus (Address sample_device) = 0x020C
  /\ RSSI sample_device = -60
  /\ exists row,
       csv (scan_callback sample_intSize sample_unrepresentable
              sample_bus 1700000005000000000 sample_device sample_located)
         = (csv sample_located ++ [row])%list
       /\ row !! 2%nat = Some "Smartphone [LE]"
       /\ row !! 5%nat = Some "524"
       /\ row !! 6%nat = Some "-60"
       /\ row !! 7%nat = Some "37.000000"
       /\ row !! 8%nat = Some "-122.000000".
Proof.
  split; [reflexivity|]. split; [reflexivity|]. split; [reflexivity|].
  apply (scenario_smartphone sample_intSize sample_unrepresentable
           sample_bus 1700000005000000000 sample_device sample_located);
    reflexivity.
Defined.

(** Altitudes 10.9 and -3.7 are written as "10" and "-3". *)
Lemma altitude_truncated_witness :
  (exists row,
     csv (scan_callback sample_intSize sample_unrepresentable
            sample_bus 1700000005000000000 sample_device
            (tpvFilter (report_at_altitude altitude_10_9) sample_initial))
       = [header; row]
     /\ row !! 9%nat = Some "10")
  /\ (exists row,
        csv (scan_callback sample_intSize sample_unrepresentable
               sample_bus 1700000005000000000 sample_device
               (tpvFilter (report_at_altitude altitude_minus_3_7)
                  sample_initial))
          = [header; row]
        /\ row !! 9%nat = Some "-3").
Proof.
  split.
  - apply (altitude_truncated sample_intSize sample_unrepresentable
             sample_bus 1700000005000000000 sample_device
             (tpvFilter (report_at_altitude altitude_10_9) sample_initial)
             0x15CCCCCCCCCCCD (2 ^ 49)).
    + reflexivity.
    + reflexivity.
    + vm_compute. split; [discriminate|reflexivity].
  - apply (altitude_truncated sample_intSize sample_unrepresentable
             sample_bus 1700000005000000000 sample_device
             (tpvFilter (report_at_altitude altitude_minus_3_7) sample_initial)
             (- 0x1D99999999999A) (2 ^ 51)).
    + reflexivity.
    + reflexivity.
    + vm_compute. split; [discriminate|reflexivity].
Defined.

(** The [float64] nearest to 1e30 is an integer that no [int] holds. *)
Example altitude_1e30_exact :
  float64_ratio altitude_1e30 = Some (1000000000000000019884624838656, 1)
  /\ Z.abs (1000000000000000019884624838656 - 10 ^ 30) * 2 <= 2 ^ 47
  /\ 2 ^ 63 <= 1000000000000000019884624838656.
Proof. repeat split; vm_compute; discriminate. Qed.

(** C10, as the specification has it, fails: for a row written at the
    altitude 1e30, whose integer part no [int] holds, on a 64-bit platform
    that converts such a value to the smallest [int], AltitudeMeters is
    "-9223372036854775808" and not the decimal rendering of the altitude
    rounded toward zero. *)
Lemma altitude_1e30_not_truncated :
  float64_trunc altitude_1e30 = Some 1000000000000000019884624838656
  /\ exists row,
       csv (scan_callback sample_intSize sample_unrepresentable
              sample_bus 1700000005000000000 sample_device
              (tpvFilter (report_at_altitude altitude_1e30) sample_initial))
         = [header; row]
       /\ row !! 9%nat = Some "-9223372036854775808"
       /\ row !! 9%nat <> Some (fmt_d 1000000000000000019884624838656).
Proof.
  split; [reflexivity|].
  eexists. split; [reflexivity|].
  split; [reflexivity|].
  vm_compute. discriminate.
Qed.

Lemma snapshot_from_one_update_witness :
  In (location_of_report scenario_report)
     (Interleaving.snapshots
        (Interleaving.run
           (Interleaving.init [scenario_report] 1)
           (let W := Interleaving.Watcher in
            let S := Interleaving.Scanner in
            [W; W; W; S; S; W; W; W; W; W; S; S; S; S; S; S; S; S])))
  /\ (location_of_report scenario_report = zero_location
      \/ exists report,
           In report [scenario_report]
           /\ Fix (location_of_report scenario_report) = (2 <=? Mode report)
           /\ Latitude (location_of_report scenario_report) = Lat report
           /\ Longitude (location_of_report scenario_report) = Lon report
           /\ Altitude (location_of_report scenario_report) = Alt report
           /\ Error (location_of_report scenario_report) = Eph report).
Proof.
  assert (Hin : In (location_of_report scenario_report)
     (Interleaving.snapshots
        (Interleaving.run
           (Interleaving.init [scenario_report] 1)
           (let W := Interleaving.Watcher in
            let S := Interleaving.Scanner in
            [W; W; W; S; S; W; W; W; W; W; S; S; S; S; S; S; S; S])))).
  { vm_compute. left. reflexivity. }
  split; [exact Hin|].
  exact (InterleavingFacts.snapshot_from_one_update _ _ _ _ Hin).
Defined.

(** C9, as the specification has it, fails: after [adapter.Scan] returns an
    error the process has not exited. *)
Lemma scan_failure_does_not_exit :
  exited (main sample_intSize sample_unrepresentable sample_startup
            [ScanReturned (Some "operation already in progress")]) = false.
Proof. reflexivity. Qed.

(** * Further properties of the code *)

(** ** The capability encoder, continued *)

Lemma string_length_append (a b : string) :
  String.length (a ++ b) = (String.length a + String.length b)%nat.
Proof.
  induction a as [|c a IH]; simpl; [reflexivity|].
  rewrite IH. reflexivity.
Qed.

(** Case analysis on the bits of a class until one side of a disjunction
    computes. *)
Ltac decide_bits p :=
  first [ left; reflexivity
        | right; reflexivity
        | destruct p as [p|p|]; decide_bits p ].

(** Only the label 0x0456 names a camcorder. *)
Lemma camcorder_only_at_label (k : Z) :
  String.eqb (deviceTypeLegend k) "Camcorder" = false \/ k = 0x0456.
Proof.
  destruct k as [|p|p]; [left; reflexivity| |left; reflexivity].
  decide_bits p.
Qed.

Lemma legend_lookup_in (k : Z) (name : string) :
  legend_lookup k = Some name -> In name (map snd legend_cases).
Proof.
  unfold legend_lookup.
  destruct (find (fun kv => fst kv =? k) legend_cases) as [kv|] eqn:Hfind;
    [|discriminate].
  intros H. injection H as <-.
  apply find_some in Hfind. destruct Hfind as [Hin _].
  apply in_map. exact Hin.
Qed.

(** X1: Every result is a name of the legend followed by " [LE]": the branch
    of [buildCapabilities] that returns the bare "[LE]" is never taken. *)
Theorem buildCapabilities_never_bare (class : Z) :
  (exists name,
     In name (map snd legend_cases)
     /\ buildCapabilities class = name ++ " [LE]")
  /\ buildCapabilities class <> "[LE]".
Proof.
  rewrite buildCapabilities_eq.
  split.
  - rewrite deviceTypeLegend_table.
    destruct (legend_lookup (Z.land class 0x1FFC)) as [name|] eqn:Hlookup.
    + exists name. split; [|reflexivity].
      exact (legend_lookup_in _ _ Hlookup).
    + exists "Misc". split; [left|]; reflexivity.
  - intros Heq. apply (f_equal String.length) in Heq.
    rewrite string_length_append in Heq. simpl in Heq. lia.
Qed.

(** X2: No class code is ever reported as a camcorder: the only [case] that
    returns "Camcorder" has a label outside the mask. *)
Theorem camcorder_never_returned (class : Z) :
  deviceTypeLegend (Z.land class 0x1FFC) <> "Camcorder"
  /\ buildCapabilities class <> "Camcorder [LE]".
Proof.
  assert (Hname : deviceTypeLegend (Z.land class 0x1FFC) <> "Camcorder").
  { intros Heq.
    destruct (camcorder_only_at_label (Z.land class 0x1FFC)) as [Hne|Hkey].
    - rewrite Heq in Hne. discriminate.
    - destruct (camcorder_label_unreachable class) as [Hmask _].
      exact (Hmask Hkey). }
  split; [exact Hname|].
  rewrite buildCapabilities_eq. intros Heq. apply Hname.
  revert Heq.
  generalize (deviceTypeLegend (Z.land class 0x1FFC)).
  intros name Heq.
  assert (Hlen : String.length name = 9%nat).
  { apply (f_equal String.length) in Heq.
    rewrite string_length_append in Heq. simpl in Heq. lia. }
  do 10 (destruct name as [|? name]; simpl in Hlen; try discriminate).
  cbv in Heq. congruence.
Qed.

(** ** The object path of a device *)

Lemma ReplaceAll_length (s : string) (old new : ascii) :
  String.length (ReplaceAll s old new) = String.length s.
Proof.
  induction s as [|c s IH]; simpl; [reflexivity|].
  rewrite IH. reflexivity.
Qed.

Lemma ReplaceAll_removes (s : string) (old new : ascii) :
  old <> new -> occurs old (ReplaceAll s old new) = false.
Proof.
  intros Hne.
  induction s as [|c s IH]; simpl; [reflexivity|].
  rewrite IH, orb_false_r.
  destruct (Ascii.eqb_spec c old) as [->|Hc].
  - apply Ascii.eqb_neq. congruence.
  - apply Ascii.eqb_neq. exact Hc.
Qed.

Lemma ReplaceAll_injective (old new : ascii) : forall a b : string,
  occurs new a = false ->
  occurs new b = false ->
  ReplaceAll a old new = ReplaceAll b old new ->
  a = b.
Proof.
  induction a as [|c a IH]; intros [|d b] Ha Hb Heq; simpl in *;
    try discriminate; [reflexivity|].
  apply orb_false_iff in Ha. destruct Ha as [Hc Ha].
  apply orb_false_iff in Hb. destruct Hb as [Hd Hb].
  apply Ascii.eqb_neq in Hc. apply Ascii.eqb_neq in Hd.
  injection Heq as Hhead Htail.
  f_equal; [|exact (IH b Ha Hb Htail)].
  destruct (Ascii.eqb_spec c old) as [->|Hco];
    destruct (Ascii.eqb_spec d old) as [->|Hdo]; congruence.
Qed.

(** X3: The path that [getDeviceClass] queries has no colon and, for addresses
    without underscores, as every textual Bluetooth address is, two
    different addresses are looked up at two different paths. *)
Theorem device_path_distinct (a b : string) :
  occurs "_" a = false ->
  occurs "_" b = false ->
  a <> b ->
  device_path a <> device_path b
  /\ occurs ":" (ReplaceAll a ":" "_") = false.
Proof.
  intros Ha Hb Hne.
  split.
  - intros Heq. apply Hne.
    unfold device_path in Heq. simpl in Heq.
    injection Heq as Heq.
    exact (ReplaceAll_injective ":" "_" a b Ha Hb Heq).
  - apply ReplaceAll_removes. discriminate.
Qed.

(** [getDeviceClass] asks for the property at [device_path] and nowhere
    else. *)
Lemma getDeviceClass_at_path (conn : Conn) (addr : string) :
  getDeviceClass conn addr =
    match conn "org.bluez" (device_path addr) "org.bluez.Device1.Class" with
    | Reply (VUint32 class) => class
    | Reply (VOther _) => 0
    | Failure _ => 0
    end.
Proof. reflexivity. Qed.

(** ** Combining logs in [payload.sh] *)










(** ** The mutex in the interleaved callbacks *)

Module CriticalFacts.

Import Interleaving Critical.

Lemma lock_inv_init pending n : lock_inv (init pending n).
Proof. split; reflexivity. Qed.

Lemma watcher_step_lock_inv c c' :
  lock_inv c -> watcher_step c = Some c' -> lock_inv c'.
Proof.
  unfold lock_inv, watcher_step, watcher_inside, scanner_inside.
  destruct c as [mu sh w rs sc ev sn]; simpl.
  intros [Hmu Hone] Hstep.
  destruct w as [|report|report f|report|report]; simpl in *.
  - destruct rs as [|report rest]; [discriminate|].
    injection Hstep as <-. simpl. split; assumption.
  - destruct mu as [g|]; [discriminate|].
    injection Hstep as <-. simpl.
    destruct sc; simpl in *; try discriminate; split; reflexivity.
  - injection Hstep as <-. simpl.
    destruct (next_field f); simpl; split; assumption.
  - injection Hstep as <-. simpl.
    destruct sc; simpl in *; try discriminate; split; reflexivity.
  - injection Hstep as <-. simpl. split; assumption.
Qed.

Lemma scanner_step_lock_inv c c' :
  lock_inv c -> scanner_step c = Some c' -> lock_inv c'.
Proof.
  unfold lock_inv, scanner_step, watcher_inside, scanner_inside.
  destruct c as [mu sh w rs sc ev sn]; simpl.
  intros [Hmu Hone] Hstep.
  destruct sc as [| |f loc|loc|loc]; simpl in *.
  - destruct ev as [|k]; [discriminate|].
    injection Hstep as <-. simpl. split; assumption.
  - destruct mu as [g|]; [discriminate|].
    injection Hstep as <-. simpl.
    destruct w; simpl in *; try discriminate; split; reflexivity.
  - injection Hstep as <-. simpl.
    destruct (next_field f); simpl; split; assumption.
  - injection Hstep as <-. simpl.
    destruct w; simpl in *; try discriminate; split; reflexivity.
  - injection Hstep as <-. simpl. split; assumption.
Qed.

Lemma run_lock_inv schedule : forall c, lock_inv c -> lock_inv (run c schedule).
Proof.
  induction schedule as [|g schedule IH]; intros c Hinv; [exact Hinv|].
  simpl. apply IH. unfold step.
  destruct g.
  - destruct (watcher_step c) as [c'|] eqn:Hstep; simpl; [|exact Hinv].
    exact (watcher_step_lock_inv c c' Hinv Hstep).
  - destruct (scanner_step c) as [c'|] eqn:Hstep; simpl; [|exact Hinv].
    exact (scanner_step_lock_inv c c' Hinv Hstep).
Qed.

(** Every discovery event is still to come, in the callback, or has left
    its snapshot. *)
Lemma run_accounting schedule : forall c,
  (length (snapshots (run c schedule)) + scanner_busy (run c schedule)
   + events (run c schedule)
   = length (snapshots c) + scanner_busy c + events c)%nat.
Proof.
  induction schedule as [|g schedule IH]; intros c; [reflexivity|].
  simpl. rewrite IH. clear IH.
  unfold step, watcher_step, scanner_step, scanner_busy.
  destruct c as [mu sh w rs sc ev sn]; simpl.
  destruct g.
  - destruct w; simpl; try reflexivity.
    + destruct rs; reflexivity.
    + destruct mu; reflexivity.
  - destruct sc as [| |f loc|loc|loc]; simpl; try reflexivity.
    + destruct ev; simpl; [reflexivity|lia].
    + destruct mu; reflexivity.
    + destruct (next_field f); reflexivity.
    + rewrite length_app. simpl. lia.
Qed.

Lemma step_stored_inv pending c g :
  stored_inv pending c -> stored_inv pending (step c g).
Proof.
  unfold stored_inv, step, watcher_step, scanner_step.
  destruct c as [mu sh w rs sc ev sn]; simpl.
  intros Hinv.
  destruct g.
  - destruct w as [|report|report f|report|report]; simpl in *.
    + destruct rs as [|report rest]; simpl; exact Hinv.
    + destruct mu as [g|]; simpl; [exact Hinv|].
      destruct Hinv as (done & Hpending & _).
      exists done. split; [exact Hpending|exact I].
    + destruct Hinv as (done & Hpending & Hagree).
      pose proof (InterleavingFacts.copy_field_agree
                    f sh (location_of_report report) Hagree) as Hnext.
      destruct (next_field f); simpl; exists done; split; assumption.
    + exact Hinv.
    + destruct Hinv as (done & Hpending & Hsh).
      exists (done ++ [report])%list. split.
      * rewrite <- app_assoc. exact Hpending.
      * unfold location_after. rewrite rev_app_distr. exact Hsh.
  - destruct sc as [| |f loc|loc|loc]; simpl.
    + destruct ev; simpl; exact Hinv.
    + destruct mu; simpl; exact Hinv.
    + destruct (next_field f); simpl; exact Hinv.
    + exact Hinv.
    + exact Hinv.
Qed.

Lemma run_stored_inv pending schedule : forall c,
  stored_inv pending c -> stored_inv pending (run c schedule).
Proof.
  induction schedule as [|g schedule IH]; intros c Hinv; [exact Hinv|].
  simpl. apply IH. apply step_stored_inv. exact Hinv.
Qed.

(** X6: Under every schedule the two goroutines are never both between
    [Lock] and [Unlock], and the mutex is free exactly when neither is. *)
Theorem mutual_exclusion pending n schedule :
  let c := run (init pending n) schedule in
  watcher_inside c && scanner_inside c = false
  /\ (locationMu c = None <->
      watcher_inside c = false /\ scanner_inside c = false).
Proof.
  intros c.
  destruct (run_lock_inv schedule _ (lock_inv_init pending n)) as [Hmu Hone].
  fold c in Hmu, Hone.
  split; [exact Hone|].
  rewrite Hmu.
  destruct (watcher_inside c), (scanner_inside c); simpl;
    split; try discriminate; try reflexivity;
    try (intros [H1 H2]; discriminate); intros _; split; reflexivity.
Qed.

(** X7: The callbacks cannot block each other for good: when neither goroutine
    can move, every report has been stored, so that [currentLocation] is
    the one of the last report, and every discovery event has taken its one
    snapshot. *)
Theorem no_deadlock pending n schedule :
  let c := run (init pending n) schedule in
  watcher_step c = None ->
  scanner_step c = None ->
  finished c
  /\ length (snapshots c) = n
  /\ shared c = location_after pending.
Proof.
  intros c Hw Hs.
  destruct (run_lock_inv schedule _ (lock_inv_init pending n)) as [Hmu _].
  pose proof (run_accounting schedule (init pending n)) as Hcount.
  assert (Hstored : stored_inv pending c).
  { apply run_stored_inv. exists []. split; reflexivity. }
  fold c in Hmu, Hcount. simpl in Hcount.
  unfold finished, watcher_step, scanner_step, watcher_inside,
    scanner_inside, scanner_busy, stored_inv in *.
  destruct c as [mu sh w rs sc ev sn]; simpl in *.
  destruct w as [|report|report f|report|report]; try discriminate;
    destruct sc as [| |f' loc|loc|loc]; try discriminate;
    simpl in *; subst mu; try discriminate.
  destruct rs; [|discriminate]. destruct ev; [|discriminate].
  destruct Hstored as (done & Hpending & Hsh).
  rewrite app_nil_r in Hpending. subst done.
  repeat split; [lia|exact Hsh].
Qed.

End CriticalFacts.

(** ** The pipeline over whole runs *)

Section Pipeline.

Variable intSize : Z.
Variable unrepresentable_int : float64 -> Z.

Local Abbreviation callback := (scan_callback intSize unrepresentable_int).
Local Abbreviation deliver := (deliver intSize unrepresentable_int).
Local Abbreviation run := (run intSize unrepresentable_int).
Local Abbreviation main := (main intSize unrepresentable_int).
Local Abbreviation rows_due := (rows_due intSize unrepresentable_int).
Local Abbreviation lines_due := (lines_due intSize unrepresentable_int).

Lemma callback_firstSeen conn now device st :
  Fix (currentLocation st) = true ->
  firstSeen (callback conn now device st) =
    match firstSeen st !! Address device with
    | Some _ => firstSeen st
    | None => <[Address device := now]> (firstSeen st)
    end.
Proof.
  intros Hfix. unfold scan_callback. rewrite Hfix. reflexivity.
Qed.

Lemma callback_keeps_location conn now device st :
  currentLocation (callback conn now device st) = currentLocation st.
Proof.
  unfold scan_callback. destruct (Fix (currentLocation st)); reflexivity.
Qed.

(** What one input does to a process that has a state. *)
Lemma deliver_cases p i st :
  state_of p = Some st ->
  exists st',
    state_of (deliver p i) = Some st'
    /\ match i with
       | PositionReport report => st' = tpvFilter report st
       | Discovery now conn device =>
           (p = Scanning st /\ st' = callback conn now device st)
           \/ (p = Spinning st /\ st' = st)
       | ScanReturned err =>
           st' = st \/ exists line, st' = print line st
       end.
Proof.
  intros Hp.
  destruct p as [message|st0|st0]; simpl in Hp; [discriminate| |];
    injection Hp as ->.
  - destruct i as [report|now conn device|[err|]]; simpl;
      eexists; (split; [reflexivity|]).
    + reflexivity.
    + left. split; reflexivity.
    + right. eexists. reflexivity.
    + left. reflexivity.
  - destruct i as [report|now conn device|err]; simpl;
      eexists; (split; [reflexivity|]).
    + reflexivity.
    + right. split; reflexivity.
    + left. reflexivity.
Qed.

(** X8: Whatever the inputs, the stored location is the one of the last
    report among them, or the old one if there was no report: discovery
    events and the return of the scan never touch it. *)
Theorem location_is_last_report inputs p st :
  state_of p = Some st ->
  exists st',
    state_of (run p inputs) = Some st'
    /\ currentLocation st' =
         match last_report inputs with
         | Some report => location_of_report report
         | None => currentLocation st
         end.
Proof.
  revert p st.
  induction inputs as [|i inputs IH]; intros p st Hp.
  - exists st. split; [exact Hp|reflexivity].
  - destruct (deliver_cases p i st Hp) as (st1 & Hp1 & Hcases).
    destruct (IH _ _ Hp1) as (st' & Hst' & Hloc).
    exists st'. split; [exact Hst'|].
    rewrite Hloc. simpl.
    destruct (last_report inputs) as [report|]; [reflexivity|].
    destruct i as [report|now conn device|err].
    + rewrite Hcases. reflexivity.
    + destruct Hcases as [[_ ->]|[_ ->]];
        [apply callback_keeps_location|reflexivity].
    + destruct Hcases as [->|(line & ->)]; reflexivity.
Qed.

(** X9: A report with a mode below 2 ends the fix: the next discovery event
    writes no row and registers nothing, whatever was reported before. *)
Theorem stale_fix_not_used report conn now device st :
  Mode report < 2 ->
  csv (callback conn now device (tpvFilter report st)) = csv st
  /\ firstSeen (callback conn now device (tpvFilter report st))
     = firstSeen st.
Proof.
  intros Hmode.
  assert (Hfix : Fix (currentLocation (tpvFilter report st)) = false).
  { simpl. apply Z.leb_gt. exact Hmode. }
  rewrite (callback_without_fix _ _ _ _ _ _ Hfix).
  split; reflexivity.
Qed.

(** X10: With a fix, the Frequency column is the decimal of the class that
    [getDeviceClass] returns for the device, masked to bits 2 to 12; that
    number is a multiple of 4 between 0 and 8188, and AuthMode is the
    capability string of that same number. *)
Theorem frequency_matches_capabilities conn now device st :
  Fix (currentLocation st) = true ->
  let code := Z.land (getDeviceClass conn (Address device)) 0x1FFC in
  exists row,
    csv (callback conn now device st) = (csv st ++ [row])%list
    /\ row !! 5%nat = Some (fmt_d code)
    /\ row !! 2%nat = Some (buildCapabilities code)
    /\ 0 <= code <= 8188
    /\ code mod 4 = 0.
Proof.
  intros Hfix code.
  destruct (callback_with_fix intSize unrepresentable_int conn now device st
              Hfix)
    as (row & Hrow & _ & _ & Hauth & _ & _ & Hfreq & _).
  set (class := getDeviceClass conn (Address device)) in *.
  exists row.
  assert (Hmod : code mod 4 = 0).
  { unfold code. change 4 with (2 ^ 2). rewrite <- Z.land_ones by lia.
    rewrite <- Z.land_assoc. change (Z.land 8188 (Z.ones 2)) with 0.
    apply Z.land_0_r. }
  pose proof (mask_range class) as Hrange. fold code in Hrange.
  split; [exact Hrow|]. split; [exact Hfreq|].
  split; [|split; [|exact Hmod]].
  - rewrite Hauth. f_equal. unfold code.
    rewrite !buildCapabilities_eq, mask_idempotent. reflexivity.
  - pose proof (Z.mod_divide code 4 ltac:(lia)) as [Hdiv _].
    destruct (Hdiv Hmod) as [q Hq]. lia.
Qed.

(** X11: Inputs that hold no discovery event for [addr] leave its entry in the
    registry as it is and write no row for it. *)
Theorem other_addresses_untouched inputs p st addr :
  state_of p = Some st ->
  forallb (fun i => negb (discovery_of addr i)) inputs = true ->
  exists st' new,
    state_of (run p inputs) = Some st'
    /\ firstSeen st' !! addr = firstSeen st !! addr
    /\ csv st' = (csv st ++ new)%list
    /\ Forall (fun row => row !! 0%nat <> Some addr) new.
Proof.
  revert p st.
  induction inputs as [|i inputs IH]; intros p st Hp Hnone.
  - exists st, []. rewrite app_nil_r.
    repeat split; [exact Hp|constructor].
  - simpl in Hnone. apply andb_true_iff in Hnone.
    destruct Hnone as [Hi Hrest].
    destruct (deliver_cases p i st Hp) as (st1 & Hp1 & Hcases).
    assert (Hstep : exists new1,
              firstSeen st1 !! addr = firstSeen st !! addr
              /\ csv st1 = (csv st ++ new1)%list
              /\ Forall (fun row => row !! 0%nat <> Some addr) new1).
    { destruct i as [report|now conn device|err];
        [rewrite Hcases
        |destruct Hcases as [[_ ->]|[_ ->]]
        |destruct Hcases as [->|(line & ->)]];
        try (exists []; rewrite app_nil_r;
             repeat split; [reflexivity..|constructor]).
      simpl in Hi. apply negb_true_iff in Hi.
      apply String.eqb_neq in Hi.
      destruct (Fix (currentLocation st)) eqn:Hfix.
      - destruct (callback_with_fix intSize unrepresentable_int
                    conn now device st Hfix)
          as (row & Hrow & _ & Hmac & _).
        exists [row]. split; [|split; [exact Hrow|]].
        + rewrite (callback_firstSeen _ _ _ _ Hfix).
          destruct (firstSeen st !! Address device); [reflexivity|].
          apply lookup_insert_ne. exact Hi.
        + constructor; [|constructor].
          rewrite Hmac. intros Heq. injection Heq as Heq. exact (Hi Heq).
      - rewrite (callback_without_fix _ _ _ _ _ _ Hfix).
        exists []. rewrite app_nil_r.
        repeat split; [reflexivity..|constructor]. }
    destruct Hstep as (new1 & Hfs1 & Hcsv1 & Hrows1).
    destruct (IH _ _ Hp1 Hrest) as (st' & new & Hst' & Hfs & Hcsv & Hrows).
    exists st', (new1 ++ new)%list. simpl.
    split; [exact Hst'|]. split; [congruence|]. split.
    + rewrite Hcsv, Hcsv1. symmetry. apply app_assoc.
    + apply Forall_app. split; assumption.
Qed.

(** X12: Over any run both outputs only grow: the records already in the log
    and the lines already printed stay in place, one record is added for
    each discovery event handled with a fix, and one line is printed for
    each report, each handled discovery event and a failed scan. *)
Theorem outputs_append_only inputs p st :
  state_of p = Some st ->
  exists st' rows lines,
    state_of (run p inputs) = Some st'
    /\ csv st' = (csv st ++ rows)%list
    /\ length rows = rows_due p inputs
    /\ stdout st' = (stdout st ++ lines)%list
    /\ length lines = lines_due p inputs.
Proof.
  revert p st.
  induction inputs as [|i inputs IH]; intros p st Hp.
  - exists st, [], []. rewrite !app_nil_r. repeat split. exact Hp.
  - assert (Hstep : exists st1 rows1 lines1,
              state_of (deliver p i) = Some st1
              /\ csv st1 = (csv st ++ rows1)%list
              /\ length rows1 = rows_due p [i]
              /\ stdout st1 = (stdout st ++ lines1)%list
              /\ length lines1 = lines_due p [i]).
    { destruct p as [message|st0|st0]; simpl in Hp; [discriminate| |];
        injection Hp as ->.
      - destruct i as [report|now conn device|[err|]]; simpl.
        + eexists _, [], [_]. rewrite app_nil_r. repeat split.
        + destruct (Fix (currentLocation st)) eqn:Hfix.
          * destruct (callback_with_fix intSize unrepresentable_int
                        conn now device st Hfix) as (row & Hrow & _).
            eexists _, [row], [_].
            split; [reflexivity|]. split; [exact Hrow|].
            split; [reflexivity|].
            unfold scan_callback. rewrite Hfix. simpl.
            split; reflexivity.
          * rewrite (callback_without_fix _ _ _ _ _ _ Hfix).
            eexists _, [], [_]. rewrite app_nil_r. repeat split.
        + eexists _, [], [_]. rewrite app_nil_r. repeat split.
        + eexists _, [], []. rewrite !app_nil_r. repeat split.
      - destruct i as [report|now conn device|err]; simpl.
        + eexists _, [], [_]. rewrite app_nil_r. repeat split.
        + eexists _, [], []. rewrite !app_nil_r. repeat split.
        + eexists _, [], []. rewrite !app_nil_r. repeat split. }
    destruct Hstep as (st1 & rows1 & lines1 & Hp1 & Hcsv1 & Hr1 & Hout1 & Hl1).
    destruct (IH _ _ Hp1)
      as (st' & rows & lines & Hst' & Hcsv & Hr & Hout & Hl).
    exists st', (rows1 ++ rows)%list, (lines1 ++ lines)%list.
    split; [exact Hst'|].
    split; [rewrite Hcsv, Hcsv1; symmetry; apply app_assoc|].
    split; [rewrite length_app, Hr1, Hr; simpl; lia|].
    split; [rewrite Hout, Hout1; symmetry; apply app_assoc|].
    rewrite length_app, Hl1, Hl. simpl. lia.
Qed.

Lemma print_matches_registry line st :
  log_matches_registry st -> log_matches_registry (print line st).
Proof. intros H. exact H. Qed.

Lemma callback_matches_registry conn now device st :
  log_matches_registry st ->
  log_matches_registry (callback conn now device st).
Proof.
  intros (rows & Hcsv & Hrows & Hreg).
  destruct (Fix (currentLocation st)) eqn:Hfix.
  - destruct (callback_with_fix intSize unrepresentable_int
                conn now device st Hfix)
      as (row & Hrow & _ & Hmac & _ & Hfs & _).
    pose proof (callback_firstSeen conn now device st Hfix) as Hmap.
    exists (rows ++ [row])%list.
    split; [rewrite Hrow, Hcsv; reflexivity|].
    destruct (firstSeen st !! Address device) as [t0|] eqn:Hdev.
    + rewrite Hmap in *. rewrite Hdev in Hfs. simpl in Hfs. split.
      * intros r Hr. apply in_app_or in Hr.
        destruct Hr as [Hr|[<-|[]]]; [exact (Hrows r Hr)|].
        exists (Address device), t0. repeat split; assumption.
      * intros addr t Hin.
        destruct (Hreg addr t Hin) as (r & Hr & Hr0).
        exists r. split; [apply in_or_app; left; exact Hr|exact Hr0].
    + rewrite Hmap in *. rewrite lookup_insert_eq in Hfs. simpl in Hfs.
      split.
      * intros r Hr. apply in_app_or in Hr.
        destruct Hr as [Hr|[<-|[]]].
        -- destruct (Hrows r Hr) as (addr & t & Hr0 & Hin & Hr3).
           exists addr, t. repeat split; try assumption.
           rewrite lookup_insert_ne; [exact Hin|].
           intros Heq. rewrite Heq in Hdev. congruence.
        -- exists (Address device), now.
           repeat split; try assumption. apply lookup_insert_eq.
      * intros addr t Hin.
        destruct (decide (Address device = addr)) as [<-|Hne].
        -- exists row. split; [apply in_or_app; right; left; reflexivity|].
           exact Hmac.
        -- rewrite lookup_insert_ne in Hin by exact Hne.
           destruct (Hreg addr t Hin) as (r & Hr & Hr0).
           exists r. split; [apply in_or_app; left; exact Hr|exact Hr0].
  - rewrite (callback_without_fix _ _ _ _ _ _ Hfix).
    exists rows. repeat split; assumption.
Qed.

Lemma run_matches_registry inputs : forall p st,
  state_of p = Some st ->
  log_matches_registry st ->
  exists st', state_of (run p inputs) = Some st' /\ log_matches_registry st'.
Proof.
  induction inputs as [|i inputs IH]; intros p st Hp Hinv.
  - exists st. split; assumption.
  - destruct (deliver_cases p i st Hp) as (st1 & Hp1 & Hcases).
    apply (IH _ _ Hp1).
    destruct i as [report|now conn device|err].
    + rewrite Hcases. exact Hinv.
    + destruct Hcases as [[_ ->]|[_ ->]];
        [apply callback_matches_registry|]; exact Hinv.
    + destruct Hcases as [->|(line & ->)]; exact Hinv.
Qed.

Lemma run_panicked inputs message :
  run (Panicked message) inputs = Panicked message.
Proof.
  induction inputs as [|i inputs IH]; [reflexivity|exact IH].
Qed.

(** X13: In every state that [main] reaches, the log and the registry agree:
    each data row is for a registered address and shows the time recorded
    for it, and each registered address has at least one row. *)
Theorem registry_matches_log s inputs st :
  state_of (main s inputs) = Some st ->
  exists rows,
    csv st = header :: rows
    /\ (forall row, In row rows ->
          exists addr t,
            row !! 0%nat = Some addr
            /\ firstSeen st !! addr = Some t
            /\ row !! 3%nat = Some (Format_date_time t))
    /\ (forall addr t, firstSeen st !! addr = Some t ->
          exists row, In row rows /\ row !! 0%nat = Some addr).
Proof.
  intros Hst.
  change (state_of (run (main_start s) inputs) = Some st) in Hst.
  destruct (main_start s) as [message|st0|st0] eqn:Hstart.
  - rewrite run_panicked in Hst. discriminate.
  - assert (Hinit : log_matches_registry st0).
    { revert Hstart. unfold main_start, must.
      destruct (enable_error s); [discriminate|].
      destruct (dial_error s); [discriminate|].
      destruct (system_bus_error s); [discriminate|].
      destruct (mkdir_error s); [discriminate|].
      destruct (create_error s); [discriminate|].
      intros H. injection H as <-.
      exists []. split; [reflexivity|]. split.
      - intros row [].
      - intros addr t Hin. simpl in Hin.
        rewrite lookup_empty in Hin. discriminate. }
    destruct (run_matches_registry inputs (Scanning st0) st0 eq_refl Hinit)
      as (st' & Hst' & Hinv).
    rewrite Hst in Hst'. injection Hst' as <-. exact Hinv.
  - exfalso. revert Hstart. unfold main_start, must.
    destruct (enable_error s); [discriminate|].
    destruct (dial_error s); [discriminate|].
    destruct (system_bus_error s); [discriminate|].
    destruct (mkdir_error s); [discriminate|].
    destruct (create_error s); discriminate.
Qed.

Lemma run_alive inputs : forall p,
  exited p = false -> exited (run p inputs) = false.
Proof.
  induction inputs as [|i inputs IH]; intros p Hp; [exact Hp|].
  simpl. apply IH.
  destruct p as [message|st|st]; [discriminate| |].
  - destruct i as [report|now conn device|[err|]]; reflexivity.
  - destruct i; reflexivity.
Qed.

(** X14: The process ends by itself exactly when a startup call fails: it then
    stops in the panic of [must] before any log exists, whatever arrives
    later; once every startup call has succeeded, no input makes it exit. *)
Theorem exit_only_at_startup s inputs :
  exited (main s inputs) = negb (startup_ok s)
  /\ (startup_ok s = false ->
      main s inputs = main_start s /\ state_of (main s inputs) = None).
Proof.
  change (main s inputs) with (run (main_start s) inputs).
  unfold startup_ok, main_start, must.
  destruct (enable_error s);
    [rewrite run_panicked; repeat split|].
  destruct (dial_error s);
    [rewrite run_panicked; repeat split|].
  destruct (system_bus_error s);
    [rewrite run_panicked; repeat split|].
  destruct (mkdir_error s);
    [rewrite run_panicked; repeat split|].
  destruct (create_error s);
    [rewrite run_panicked; repeat split|].
  split; [|discriminate].
  apply run_alive. reflexivity.
Qed.

End Pipeline.

(** ** The further properties at sample inputs *)

Lemma device_path_distinct_witness :
  occurs "_" "AA:BB:CC:DD:EE:FF" = false
  /\ occurs "_" "AA:BB:CC:DD:EE:00" = false
  /\ device_path "AA:BB:CC:DD:EE:FF" <> device_path "AA:BB:CC:DD:EE:00"
  /\ occurs ":" (ReplaceAll "AA:BB:CC:DD:EE:FF" ":" "_") = false.
Proof.
  split; [reflexivity|]. split; [reflexivity|].
  apply (device_path_distinct "AA:BB:CC:DD:EE:FF" "AA:BB:CC:DD:EE:00");
    [reflexivity|reflexivity|discriminate].
Defined.



Lemma no_deadlock_witness :
  let c :=
    Interleaving.run
      (Interleaving.init [scenario_report] 1)
      (let W := Interleaving.Watcher in
       let S := Interleaving.Scanner in
       [W; W; W; S; S; W; W; W; W; W; S; S; S; S; S; S; S; S; W]) in
  Interleaving.watcher_step c = None
  /\ Interleaving.scanner_step c = None
  /\ Critical.finished c
  /\ length (Interleaving.snapshots c) = 1%nat
  /\ Interleaving.shared c = Critical.location_after [scenario_report].
Proof.
  intros c.
  assert (Hw : Interleaving.watcher_step c = None)
    by (vm_compute; reflexivity).
  assert (Hs : Interleaving.scanner_step c = None)
    by (vm_compute; reflexivity).
  split; [exact Hw|]. split; [exact Hs|].
  exact (CriticalFacts.no_deadlock [scenario_report] 1 _ Hw Hs).
Defined.

Lemma location_is_last_report_witness :
  state_of (Scanning sample_initial) = Some sample_initial
  /\ exists st',
       state_of (run sample_intSize sample_unrepresentable
                   (Scanning sample_initial) sample_inputs) = Some st'
       /\ currentLocation st' =
            match last_report sample_inputs with
            | Some report => location_of_report report
            | None => currentLocation sample_initial
            end.
Proof.
  split; [reflexivity|].
  apply (location_is_last_report sample_intSize sample_unrepresentable
           sample_inputs (Scanning sample_initial) sample_initial).
  reflexivity.
Defined.

Lemma stale_fix_not_used_witness :
  Mode {| Mode := 1; Lat := S754_nan; Lon := S754_nan;
          Alt := S754_nan; Eph := S754_nan |} < 2
  /\ csv (scan_callback sample_intSize sample_unrepresentable
            sample_bus 1700000005000000000 sample_device
            (tpvFilter {| Mode := 1; Lat := S754_nan; Lon := S754_nan;
                          Alt := S754_nan; Eph := S754_nan |}
               sample_located))
     = csv sample_located.
Proof.
  split; [reflexivity|].
  apply (stale_fix_not_used sample_intSize sample_unrepresentable
           {| Mode := 1; Lat := S754_nan; Lon := S754_nan;
              Alt := S754_nan; Eph := S754_nan |}
           sample_bus 1700000005000000000 sample_device sample_located).
  reflexivity.
Defined.

Lemma frequency_matches_capabilities_witness :
  Fix (currentLocation sample_located) = true
  /\ getDeviceClass sample_bus (Address sample_device) = 0x020C
  /\ exists row,
       csv (scan_callback sample_intSize sample_unrepresentable
              sample_bus 1700000005000000000 sample_device sample_located)
         = (csv sample_located ++ [row])%list
       /\ row !! 5%nat = Some "524"
       /\ row !! 2%nat = Some "Smartphone [LE]"
       /\ 0 <= 524 <= 8188
       /\ 524 mod 4 = 0.
Proof.
  split; [reflexivity|]. split; [reflexivity|].
  apply (frequency_matches_capabilities sample_intSize
           sample_unrepresentable sample_bus 1700000005000000000
           sample_device sample_located).
  reflexivity.
Defined.

Lemma other_addresses_untouched_witness :
  state_of (Scanning sample_initial) = Some sample_initial
  /\ forallb (fun i => negb (discovery_of "11:22:33:44:55:66" i))
       sample_inputs = true
  /\ exists st' new,
       state_of (run sample_intSize sample_unrepresentable
                   (Scanning sample_initial) sample_inputs) = Some st'
       /\ firstSeen st' !! "11:22:33:44:55:66"
          = firstSeen sample_initial !! "11:22:33:44:55:66"
       /\ csv st' = (csv sample_initial ++ new)%list
       /\ Forall (fun row => row !! 0%nat <> Some "11:22:33:44:55:66") new.
Proof.
  split; [reflexivity|]. split; [reflexivity|].
  apply (other_addresses_untouched sample_intSize sample_unrepresentable
           sample_inputs (Scanning sample_initial) sample_initial
           "11:22:33:44:55:66");
    reflexivity.
Defined.

Lemma outputs_append_only_witness :
  state_of (Scanning sample_initial) = Some sample_initial
  /\ exists st' rows lines,
       state_of (run sample_intSize sample_unrepresentable
                   (Scanning sample_initial) sample_inputs) = Some st'
       /\ csv st' = (csv sample_initial ++ rows)%list
       /\ length rows
          = rows_due sample_intSize sample_unrepresentable
              (Scanning sample_initial) sample_inputs
       /\ stdout st' = (stdout sample_initial ++ lines)%list
       /\ length lines
          = lines_due sample_intSize sample_unrepresentable
              (Scanning sample_initial) sample_inputs.
Proof.
  split; [reflexivity|].
  apply (outputs_append_only sample_intSize sample_unrepresentable
           sample_inputs (Scanning sample_initial) sample_initial).
  reflexivity.
Defined.

Lemma registry_matches_log_witness :
  state_of (main sample_intSize sample_unrepresentable
              sample_startup sample_inputs) = Some sample_final
  /\ exists rows,
       csv sample_final = header :: rows
       /\ (forall row, In row rows ->
             exists addr t,
               row !! 0%nat = Some addr
               /\ firstSeen sample_final !! addr = Some t
               /\ row !! 3%nat = Some (Format_date_time t))
       /\ (forall addr t, firstSeen sample_final !! addr = Some t ->
             exists row, In row rows /\ row !! 0%nat = Some addr).
Proof.
  split; [reflexivity|].
  apply (registry_matches_log sample_intSize sample_unrepresentable
           sample_startup sample_inputs sample_final).
  reflexivity.
Defined.

Lemma exit_only_at_startup_witness :
  startup_ok {| enable_error := None;
                dial_error := Some "dial tcp 127.0.0.1:2947: refused";
                system_bus_error := None;
                mkdir_error := None;
                start_time := 0;
                create_error := Some "read-only file system" |} = false
  /\ main sample_intSize sample_unrepresentable
       {| enable_error := None;
          dial_error := Some "dial tcp 127.0.0.1:2947: refused";
          system_bus_error := None;
          mkdir_error := None;
          start_time := 0;
          create_error := Some "read-only file system" |}
       sample_inputs
     = Panicked "failed to gpsd dial: dial tcp 127.0.0.1:2947: refused".
Proof.
  split; [reflexivity|].
  destruct (exit_only_at_startup sample_intSize sample_unrepresentable
              {| enable_error := None;
                 dial_error := Some "dial tcp 127.0.0.1:2947: refused";
                 system_bus_error := None;
                 mkdir_error := None;
                 start_time := 0;
                 create_error := Some "read-only file system" |}
              sample_inputs) as [_ Hpanic].
  destruct (Hpanic eq_refl) as [Hmain _].
  exact Hmain.
Defined.
